(** * AI-Image-Captioner: a shallow embedding of [app.py]

    [app.py] is a Streamlit script around three functions, [load_model],
    [generate_caption] and [load_image_from_url].  Everything interesting the
    script does is a call into a library (transformers, PIL, requests, torch,
    streamlit) wrapped in [try]/[except].  The embedding keeps that shape:

    - a library call is a field of the class [ExternalLibs]; it takes the
      state of the outside world and answers with a value or with a Python
      exception;
    - the script runs in a state-and-exception monad [M] over the process
      state [Proc]: the outside world, the [st.cache_resource] store, torch's
      gradient flag and the log of every library call made so far (what a
      test would capture with mocks);
    - [try: ... except Exception as e: ...] is [try_except];
      [st.stop()] ends a script run with an outcome no handler of the script
      catches. *)

From Stdlib Require Import String Ascii List ZArith Bool Lia.
Import ListNotations.
Open Scope string_scope.

(** ** Python exceptions *)

(** The classes that matter to the handlers of [app.py].  All of them derive
    from [Exception]; [ConnectionError], [Timeout], [HTTPError] and
    [TooManyRedirects] derive from [requests.exceptions.RequestException]. *)
Inductive exn_class : Type :=
| RequestException
| ConnectionError
| Timeout
| HTTPError
| TooManyRedirects
| AttributeError
| TypeError
| IndexError
| ValueError
| OSError
| UnidentifiedImageError
| RuntimeError
| OtherException.

(** [isinstance(e, requests.exceptions.RequestException)]. *)
Definition is_RequestException (c : exn_class) : bool :=
  match c with
  | RequestException | ConnectionError | Timeout | HTTPError | TooManyRedirects => true
  | _ => false
  end.

(** An exception object: its class and the text [str(e)] gives. *)
Record exn : Type := mk_exn { exn_class_of : exn_class; exn_str : string }.

(** What a library call answers. *)
Inductive res (A : Type) : Type :=
| Val (a : A)
| Exc (e : exn).
Arguments Val {A} a.
Arguments Exc {A} e.

(** How a piece of the script ends: it returns, it raises an [Exception], or
    [st.stop()] was called (Streamlit's stop signal is not an [Exception], so
    [except Exception] lets it through). *)
Inductive outcome (A : Type) : Type :=
| Return (a : A)
| Raised (e : exn)
| Stopped.
Arguments Return {A} a.
Arguments Raised {A} e.
Arguments Stopped {A}.

(** ** Data *)

(** A PIL image: the [mode] attribute the pipeline tests, and the bitmap. *)
Record Image : Type := mk_Image {
  mode : string;
  size : Z * Z;
  pixels : list Z
}.

(** A [requests.Response], as far as the script reads it. *)
Record Response : Type := mk_Response {
  status_code : Z;
  content : list Byte.byte
}.

(** The widgets' values in one run of the script. *)
Record UserInput : Type := mk_UserInput {
  uploaded_file : option (list Byte.byte);
  url_input : string;
  url_button : bool;
  camera_photo : option (list Byte.byte)
}.

(** Calls into streamlit, with the arguments the script passes. *)
Inductive st_call : Type :=
| st_set_page_config (page_title page_icon layout : string)
| st_title (body : string)
| st_markdown (body : string)
| st_spinner (text : string)
| st_error (body : string)
| st_success (body : string)
| st_info (body : string)
| st_warning (body : string)
| st_subheader (body : string)
| st_tabs (labels : list string)
| st_columns (n : Z)
| st_file_uploader (label : string) (types : list string) (key : string)
| st_text_input (label placeholder key : string)
| st_button (label key : string)
| st_camera_input (label key : string)
| st_image (image : option Image) (caption : string)
| st_stop.

(** Python's truth value of a string and of [None]-or-string. *)
Definition truthy (s : string) : bool :=
  match s with EmptyString => false | String _ _ => true end.

Definition truthy_opt (o : option string) : bool :=
  match o with None => false | Some s => truthy s end.

Definition is_None {A : Type} (o : option A) : bool :=
  match o with None => true | Some _ => false end.

(** ** The libraries *)

(** One field per library call of [app.py].  [World] is whatever the
    libraries depend on outside the script (network, model hub, files);
    [Processor], [Model] and [Inputs] are the opaque objects transformers
    hands out.  [model_generate] receives torch's current gradient flag. *)
Class ExternalLibs : Type := {
  World : Type;
  Processor : Type;
  Model : Type;
  Inputs : Type;
  BlipProcessor_from_pretrained : string -> World -> res Processor * World;
  BlipForConditionalGeneration_from_pretrained : string -> World -> res Model * World;
  Image_open : list Byte.byte -> World -> res Image * World;
  Image_convert : Image -> string -> World -> res Image * World;
  processor_call : Processor -> Image -> string -> World -> res Inputs * World;
  model_generate : Model -> Inputs -> Z -> bool -> World -> res (list (list Z)) * World;
  processor_decode : Processor -> list Z -> bool -> World -> res string * World;
  requests_get : string -> Z -> World -> res Response * World;
  Response_raise_for_status : Response -> World -> res unit * World;
  st_image_render : option Image -> string -> World -> res unit * World
}.

Section App.

Context {L : ExternalLibs}.

(** The library calls a run makes, newest first in [log]. *)
Inductive event : Type :=
| EvProcessorFromPretrained (name : string)
| EvModelFromPretrained (name : string)
| EvImageOpen (data : list Byte.byte)
| EvConvert (im : Image) (target : string)
| EvProcessorCall (p : Processor) (im : Image) (return_tensors : string)
| EvGenerate (m : Model) (inputs : Inputs) (max_length : Z) (grad_enabled : bool)
| EvDecode (p : Processor) (seq : list Z) (skip_special_tokens : bool)
| EvRequestsGet (url : string) (timeout : Z)
| EvRaiseForStatus (r : Response)
| EvSt (c : st_call).

(** The process: the outside world, the store of [st.cache_resource] for
    [load_model] (empty until the first call returns), torch's gradient flag
    and the log. *)
Record Proc : Type := mk_Proc {
  world : World;
  cache : option (option Processor * option Model);
  grad : bool;
  log : list event
}.

Definition set_world (w : World) (s : Proc) : Proc :=
  mk_Proc w (cache s) (grad s) (log s).
Definition set_cache (c : option (option Processor * option Model)) (s : Proc) : Proc :=
  mk_Proc (world s) c (grad s) (log s).
Definition set_grad (g : bool) (s : Proc) : Proc :=
  mk_Proc (world s) (cache s) g (log s).
Definition record (ev : event) (s : Proc) : Proc :=
  mk_Proc (world s) (cache s) (grad s) (ev :: log s).

(** ** The monad of the script *)

Definition M (A : Type) : Type := Proc -> outcome A * Proc.

Definition ret {A : Type} (a : A) : M A := fun s => (Return a, s).

Definition raise {A : Type} (e : exn) : M A := fun s => (Raised e, s).

Definition bind {A B : Type} (m : M A) (k : A -> M B) : M B :=
  fun s =>
    match m s with
    | (Return a, s') => k a s'
    | (Raised e, s') => (Raised e, s')
    | (Stopped, s') => (Stopped, s')
    end.

(** [try: body except Exception as e: handler e]. *)
Definition try_except {A : Type} (body : M A) (handler : exn -> M A) : M A :=
  fun s =>
    match body s with
    | (Raised e, s') => handler e s'
    | r => r
    end.

(** A library call: logged, then answered by the library. *)
Definition lib_call {A : Type} (ev : event) (f : World -> res A * World) : M A :=
  fun s =>
    let s1 := record ev s in
    match f (world s1) with
    | (Val a, w) => (Return a, set_world w s1)
    | (Exc e, w) => (Raised e, set_world w s1)
    end.

(** A streamlit call that only draws. *)
Definition st (c : st_call) : M unit := fun s => (Return tt, record (EvSt c) s).

(** [st.stop()]. *)
Definition stop {A : Type} : M A := fun s => (Stopped, record (EvSt st_stop) s).

(** [with torch.no_grad(): body]: the flag is saved, cleared, and put back
    however the body ends. *)
Definition with_no_grad {A : Type} (body : M A) : M A :=
  fun s =>
    let prev := grad s in
    let (r, s') := body (set_grad false s) in
    (r, set_grad prev s').

(** [with st.spinner(text): body]. *)
Definition with_spinner {A : Type} (text : string) (body : M A) : M A :=
  bind (st (st_spinner text)) (fun _ => body).

End App.

Declare Scope py_scope.
Delimit Scope py_scope with py.
Notation "x <- m ;; k" := (bind m (fun x => k))
  (at level 100, m at next level, right associativity) : py_scope.
Notation "m ;;; k" := (bind m (fun _ => k))
  (at level 100, right associativity) : py_scope.
Open Scope py_scope.

Section Script.

Context {L : ExternalLibs}.

Definition checkpoint : string := "Salesforce/blip-image-captioning-base".

(** ** [load_model] *)

(** The body of [load_model], without its decorator. *)
Definition load_model_body : M (option Processor * option Model) :=
  try_except
    (processor <- lib_call (EvProcessorFromPretrained checkpoint)
                    (BlipProcessor_from_pretrained checkpoint) ;;
     model <- lib_call (EvModelFromPretrained checkpoint)
                (BlipForConditionalGeneration_from_pretrained checkpoint) ;;
     ret (Some processor, Some model))
    (fun e =>
       st (st_error ("Error loading model: " ++ exn_str e)) ;;;
       ret (None, None)).

(** [@st.cache_resource] on a function without arguments, with the
    decorator's defaults (no [ttl], no [max_entries]): the first call that
    returns stores its value in the process; every later call answers from
    the store and does not run the body. *)
Definition cache_resource (body : M (option Processor * option Model))
  : M (option Processor * option Model) :=
  fun s =>
    match cache s with
    | Some v => (Return v, s)
    | None =>
        match body s with
        | (Return v, s') => (Return v, set_cache (Some v) s')
        | r => r
        end
    end.

Definition load_model : M (option Processor * option Model) :=
  cache_resource load_model_body.

(** ** [generate_caption] *)

(** [out[0]]. *)
Definition getitem0 {A : Type} (out : list A) : M A :=
  match out with
  | x :: _ => ret x
  | [] => raise (mk_exn IndexError "index 0 is out of bounds for dimension 0 with size 0")
  end.

(** The [try] block of [generate_caption]: steps 1 to 4 of the pipeline. *)
Definition generate_caption_body
  (image : option Image) (processor : option Processor) (model : option Model)
  : M string :=
  image <- match image with
           | None => raise (mk_exn AttributeError "'NoneType' object has no attribute 'mode'")
           | Some im =>
               if negb (mode im =? "RGB")
               then lib_call (EvConvert im "RGB") (Image_convert im "RGB")
               else ret im
           end ;;
  inputs <- match processor with
            | None => raise (mk_exn TypeError "'NoneType' object is not callable")
            | Some p => lib_call (EvProcessorCall p image "pt") (processor_call p image "pt")
            end ;;
  out <- with_no_grad
           (match model with
            | None => raise (mk_exn AttributeError "'NoneType' object has no attribute 'generate'")
            | Some m =>
                fun s => lib_call (EvGenerate m inputs 50 (grad s))
                           (model_generate m inputs 50 (grad s)) s
            end) ;;
  seq <- getitem0 out ;;
  caption <- match processor with
             | None => raise (mk_exn AttributeError "'NoneType' object has no attribute 'decode'")
             | Some p => lib_call (EvDecode p seq true) (processor_decode p seq true)
             end ;;
  ret caption.

Definition generate_caption
  (image : option Image) (processor : option Processor) (model : option Model)
  : M string :=
  try_except
    (generate_caption_body image processor model)
    (fun e => ret ("Error generating caption: " ++ exn_str e)).

(** ** [load_image_from_url] *)

Definition load_image_from_url (url : string) : M (option Image * option string) :=
  try_except
    (response <- lib_call (EvRequestsGet url 10) (requests_get url 10) ;;
     lib_call (EvRaiseForStatus response) (Response_raise_for_status response) ;;;
     image <- lib_call (EvImageOpen (content response)) (Image_open (content response)) ;;
     ret (Some image, None))
    (fun e =>
       if is_RequestException (exn_class_of e)
       then ret (None, Some ("Error fetching image: " ++ exn_str e))
       else ret (None, Some ("Error opening image: " ++ exn_str e))).

End Script.

Section Page.

Context {L : ExternalLibs}.

(** ** The page *)

(** The block the three tabs share (lines 90-100, 121-131 and 146-156):
    two columns, the image in the first, the caption in the second. *)
Definition show_caption
  (image : option Image) (label : string)
  (processor : option Processor) (model : option Model) : M unit :=
  st (st_columns 2) ;;;
  lib_call (EvSt (st_image image label)) (st_image_render image label) ;;;
  caption <- with_spinner "Generating caption..."
               (generate_caption image processor model) ;;
  st (st_success "Caption Generated!") ;;;
  st (st_markdown "### 💬 Caption:") ;;;
  st (st_info caption).

(** Tab 1: file upload. *)
Definition tab1 (inp : UserInput)
  (processor : option Processor) (model : option Model) : M unit :=
  st (st_subheader "Upload an Image File") ;;;
  st (st_file_uploader "Choose an image..." ["jpg"; "jpeg"; "png"; "bmp"; "webp"] "upload") ;;;
  match uploaded_file inp with
  | Some data =>
      try_except
        (image <- lib_call (EvImageOpen data) (Image_open data) ;;
         show_caption (Some image) "Uploaded Image" processor model)
        (fun e => st (st_error ("Error processing uploaded file: " ++ exn_str e)))
  | None => ret tt
  end.

(** Tab 2: URL input. *)
Definition tab2 (inp : UserInput)
  (processor : option Processor) (model : option Model) : M unit :=
  st (st_subheader "Enter Image URL") ;;;
  st (st_text_input "Paste image URL here:" "https://example.com/image.jpg" "url") ;;;
  st (st_button "Generate Caption from URL" "url_button") ;;;
  if url_button inp then
    if truthy (url_input inp) then
      r <- with_spinner "Fetching and processing image..."
             (load_image_from_url (url_input inp)) ;;
      let '(image, error) := r in
      if truthy_opt error
      then st (st_error (match error with Some msg => msg | None => "" end))
      else show_caption image "Image from URL" processor model
    else st (st_warning "Please enter a valid URL.")
  else ret tt.

(** Tab 3: camera capture. *)
Definition tab3 (inp : UserInput)
  (processor : option Processor) (model : option Model) : M unit :=
  st (st_subheader "Capture Photo with Camera") ;;;
  st (st_markdown "Click the button below to open your camera and take a photo.") ;;;
  st (st_camera_input "Take a picture" "camera") ;;;
  match camera_photo inp with
  | Some data =>
      try_except
        (image <- lib_call (EvImageOpen data) (Image_open data) ;;
         show_caption (Some image) "Captured Photo" processor model)
        (fun e => st (st_error ("Error processing camera photo: " ++ exn_str e)))
  | None => ret tt
  end.

(** Lines 68 to 166: the script from the test of the handle on. *)
Definition page (inp : UserInput)
  (processor : option Processor) (model : option Model) : M unit :=
  (if is_None processor || is_None model
   then st (st_error "Failed to load the model. Please refresh the page or check your internet connection.") ;;;
        stop
   else ret tt) ;;;
  st (st_success "✅ Model loaded successfully!") ;;;
  st (st_tabs ["📁 Upload Image"; "🔗 Image URL"; "📷 Camera Capture"]) ;;;
  tab1 inp processor model ;;;
  tab2 inp processor model ;;;
  tab3 inp processor model ;;;
  st (st_markdown "---") ;;;
  st (st_markdown "
**About this app:** This application uses the BLIP (Bootstrapping Language-Image Pre-training) model 
from Salesforce to generate descriptive captions for images. The model runs locally without requiring 
any API keys or external services.
").

(** One run of the script, top to bottom, on the widgets' current values. *)
Definition app (inp : UserInput) : M unit :=
  st (st_set_page_config "Real-Time Image Captioning" "📸" "wide") ;;;
  st (st_title "📸 Real-Time Image Captioning") ;;;
  st (st_markdown "
Generate descriptive captions for your images using AI! 
Choose from three input methods below.
") ;;;
  pm <- with_spinner "Loading AI model... This may take a moment on first run."
          load_model ;;
  let '(processor, model) := pm in
  page inp processor model.

(** ** The process *)

(** A process starts with an empty store, gradients enabled (torch's
    default) and an empty log. *)
Definition fresh (w : World) : Proc := mk_Proc w None true [].

(** Streamlit runs the script again on every interaction; whatever way a run
    ends, the process goes on from the state the run left. *)
Definition run (s : Proc) (inp : UserInput) : Proc := snd (app inp s).

Definition run_all (inps : list UserInput) (s : Proc) : Proc :=
  fold_left run inps s.

(** ** Reading the log *)

Definition is_processor_ctor (ev : event) : bool :=
  match ev with EvProcessorFromPretrained _ => true | _ => false end.

Definition is_model_ctor (ev : event) : bool :=
  match ev with EvModelFromPretrained _ => true | _ => false end.

Definition is_requests_get (ev : event) : bool :=
  match ev with EvRequestsGet _ _ => true | _ => false end.

Definition is_convert (ev : event) : bool :=
  match ev with EvConvert _ _ => true | _ => false end.

(** A call that belongs to a caption request: acquiring an image, showing
    it, or running the pipeline on it. *)
Definition is_request_event (ev : event) : bool :=
  match ev with
  | EvImageOpen _ | EvConvert _ _ | EvProcessorCall _ _ _ | EvGenerate _ _ _ _
  | EvDecode _ _ _ | EvRequestsGet _ _ | EvRaiseForStatus _ => true
  | EvSt (st_image _ _) => true
  | _ => false
  end.

Definition count (f : event -> bool) (l : list event) : nat :=
  length (filter f l).

(** The pipeline's calls in [ev] go to the handle [(p, m)]. *)
Definition uses_handle (p : Processor) (m : Model) (ev : event) : Prop :=
  match ev with
  | EvProcessorCall p' _ _ => p' = p
  | EvGenerate m' _ _ _ => m' = m
  | EvDecode p' _ _ => p' = p
  | _ => True
  end.

(** The same for the variables [processor] and [model] of the script, which
    may hold [None]. *)
Definition uses_variables (processor : option Processor) (model : option Model)
  (ev : event) : Prop :=
  match ev with
  | EvProcessorCall p _ _ => processor = Some p
  | EvGenerate m _ _ _ => model = Some m
  | EvDecode p _ _ => processor = Some p
  | _ => True
  end.

(** An event of the page below the loading of the model: no constructor,
    and the pipeline on the script's handle. *)
Definition page_event (processor : option Processor) (model : option Model)
  (ev : event) : Prop :=
  is_processor_ctor ev = false /\ is_model_ctor ev = false /\
  uses_variables processor model ev.

(** What the two constructors give [load_model] to return in world [w]. *)
Definition constructed (w : World) : option Processor * option Model :=
  match BlipProcessor_from_pretrained checkpoint w with
  | (Exc _, _) => (None, None)
  | (Val p, w1) =>
      match BlipForConditionalGeneration_from_pretrained checkpoint w1 with
      | (Exc _, _) => (None, None)
      | (Val m, _) => (Some p, Some m)
      end
  end.

(** What [load_model] returns in state [s]: the stored pair, or what the
    constructors give now. *)
Definition loaded (s : Proc) : option Processor * option Model :=
  match cache s with
  | Some v => v
  | None => constructed (world s)
  end.

(** [load_model] comes back with an absent processor or model. *)
Definition load_fails (s : Proc) : Prop :=
  is_None (fst (loaded s)) || is_None (snd (loaded s)) = true.

(** Step 1 of the pipeline on an image [im] in world [w] hands [im'] on and
    leaves the world [w']. *)
Definition step1_yields (im : Image) (w : World) (im' : Image) (w' : World) : Prop :=
  (mode im = "RGB" /\ im' = im /\ w' = w) \/
  (mode im <> "RGB" /\ Image_convert im "RGB" w = (Val im', w')).

(** The calls step 1 logs. *)
Definition step1_log (im : Image) : list event :=
  if negb (mode im =? "RGB") then [EvConvert im "RGB"] else [].

(** An event of one run of the pipeline on [im]. *)
Definition pipeline_event (im : Image) (processor : option Processor)
  (model : option Model) (ev : event) : Prop :=
  match ev with
  | EvConvert im0 target => im0 = im /\ target = "RGB" /\ mode im <> "RGB"
  | EvProcessorCall p im0 rt =>
      processor = Some p /\ rt = "pt" /\ exists w w', step1_yields im w im0 w'
  | EvGenerate m _ max_length grad_enabled =>
      model = Some m /\ max_length = 50%Z /\ grad_enabled = false
  | EvDecode p _ skip => processor = Some p /\ skip = true
  | _ => False
  end.

(** [m] only adds events that satisfy [P] to the log, and leaves the store
    of [st.cache_resource] alone. *)
Definition emits {A : Type} (P : event -> Prop) (m : M A) : Prop :=
  forall s,
  exists new,
    log (snd (m s)) = (new ++ log s)%list /\
    Forall P new /\
    cache (snd (m s)) = cache s.

(** The message of line 69. *)
Definition failed_to_load : string :=
  "Failed to load the model. Please refresh the page or check your internet connection.".

(** What holds of a process after any number of runs: each constructor was
    called at most once, and, once the store is filled, every call of the
    pipeline went to the stored pair. *)
Definition settled (s : Proc) : Prop :=
  (count is_processor_ctor (log s) <= 1)%nat /\
  (count is_model_ctor (log s) <= 1)%nat /\
  match cache s with
  | None => log s = []
  | Some (processor, model) => Forall (uses_variables processor model) (log s)
  end.

(** ** What the libraries promise *)

(** PIL: [convert(target)] returns an image of mode [target]. *)
Definition convert_yields_target_mode : Prop :=
  forall im target w im' w',
    Image_convert im target w = (Val im', w') -> mode im' = target.

(** transformers: no generated sequence is longer than [max_length]. *)
Definition generate_respects_max_length : Prop :=
  forall m inputs max_length g w out w',
    model_generate m inputs max_length g w = (Val out, w') ->
    Forall (fun seq => (Z.of_nat (length seq) <= max_length)%Z) out.

(** A library call whose answer does not depend on the outside world. *)
Definition world_independent {A : Type} (f : World -> res A * World) : Prop :=
  forall w1 w2, fst (f w1) = fst (f w2).

(** The four calls of the pipeline are functions of their arguments (a
    fixed model decoding without sampling). *)
Definition pipeline_libs_are_functions : Prop :=
  (forall im target, world_independent (Image_convert im target)) /\
  (forall p im rt, world_independent (processor_call p im rt)) /\
  (forall m inputs n g, world_independent (model_generate m inputs n g)) /\
  (forall p seq skip, world_independent (processor_decode p seq skip)).

(** ** A sentence of the specification the code does not meet *)

(** "For any valid three-channel image input, the pipeline returns a
    non-empty string not prefixed with Error", for the inputs on which
    processing, inference and decoding succeed. *)
Definition caption_never_empty_nor_error : Prop :=
  forall im p m s caption s',
    mode im = "RGB" ->
    generate_caption_body (Some im) (Some p) (Some m) s = (Return caption, s') ->
    exists text s'',
      generate_caption (Some im) (Some p) (Some m) s = (Return text, s'') /\
      text <> "" /\ String.prefix "Error" text = false.

End Page.

(** ** Reading the log of the tabs *)

Section Requests.

Context {L : ExternalLibs}.

(** What the block of a file tab (upload or camera) leaves in the log [l],
    started in world [w] with log [base]: the error of [Image.open] or of
    [st.image] under [prefix], or the three lines of a caption. *)
Definition file_tab_log (data : list Byte.byte) (label prefix : string)
  (processor : option Processor) (model : option Model)
  (w : World) (base l : list event) : Prop :=
  match Image_open data w with
  | (Exc e, _) =>
      l = EvSt (st_error (prefix ++ exn_str e)) :: EvImageOpen data :: base
  | (Val im, w1) =>
      match st_image_render (Some im) label w1 with
      | (Exc e, _) =>
          l = EvSt (st_error (prefix ++ exn_str e))
              :: EvSt (st_image (Some im) label)
              :: EvSt (st_columns 2) :: EvImageOpen data :: base
      | (Val _, w2) =>
          exists text new,
            l = (EvSt (st_info text)
                 :: EvSt (st_markdown "### 💬 Caption:")
                 :: EvSt (st_success "Caption Generated!")
                 :: new ++ EvSt (st_spinner "Generating caption...")
                 :: EvSt (st_image (Some im) label)
                 :: EvSt (st_columns 2) :: EvImageOpen data :: base)%list /\
            Forall (pipeline_event im processor model) new /\
            exists s0, world s0 = w2 /\
                       fst (generate_caption (Some im) processor model s0) = Return text
      end
  end.

(** The widgets the upload tab and the camera tab draw first, newest first. *)
Definition tab1_widgets : list event :=
  [EvSt (st_file_uploader "Choose an image..." ["jpg"; "jpeg"; "png"; "bmp"; "webp"] "upload");
   EvSt (st_subheader "Upload an Image File")].

Definition tab3_widgets : list event :=
  [EvSt (st_camera_input "Take a picture" "camera");
   EvSt (st_markdown "Click the button below to open your camera and take a photo.");
   EvSt (st_subheader "Capture Photo with Camera")].

(** The user gave the run something to caption. *)
Definition has_input (inp : UserInput) : Prop :=
  uploaded_file inp <> None \/ camera_photo inp <> None \/ url_button inp = true.

(** What every call of a run has to do with the widgets' values: the
    network is touched only for the typed URL after a click, the bytes
    opened are the user's, and images are shown and captioned only when
    there is an input. *)
Definition run_event (inp : UserInput) (ev : event) : Prop :=
  match ev with
  | EvRequestsGet url timeout =>
      url_button inp = true /\ truthy (url_input inp) = true /\
      url = url_input inp /\ timeout = 10%Z
  | EvRaiseForStatus _ => url_button inp = true /\ truthy (url_input inp) = true
  | EvImageOpen data =>
      uploaded_file inp = Some data \/ camera_photo inp = Some data \/
      (url_button inp = true /\ truthy (url_input inp) = true)
  | EvSt (st_image image _) => image <> None /\ has_input inp
  | EvConvert _ _ | EvProcessorCall _ _ _ | EvGenerate _ _ _ _ | EvDecode _ _ _ =>
      has_input inp
  | _ => True
  end.

(** [m] adds at most [n] calls of [requests.get] to the log. *)
Definition gets {A : Type} (n : nat) (m : M A) : Prop :=
  forall s,
  exists new,
    log (snd (m s)) = (new ++ log s)%list /\
    (count is_requests_get new <= n)%nat.

(** The [try] block of [load_image_from_url] raises [e] on [url] in world
    [w]: the first of the three calls that fails, fails with [e]. *)
Definition fetch_raises (url : string) (w : World) (e : exn) : Prop :=
  match requests_get url 10 w with
  | (Exc e', _) => e' = e
  | (Val r, w1) =>
      match Response_raise_for_status r w1 with
      | (Exc e', _) => e' = e
      | (Val _, w2) =>
          match Image_open (content r) w2 with
          | (Exc e', _) => e' = e
          | (Val _, _) => False
          end
      end
  end.

(** A call that shows an image or belongs to the pipeline. *)
Definition shows_or_captions (ev : event) : bool :=
  match ev with
  | EvSt (st_image _ _) | EvConvert _ _ | EvProcessorCall _ _ _
  | EvGenerate _ _ _ _ | EvDecode _ _ _ => true
  | _ => false
  end.

End Requests.

(** ** A stand-in for the libraries

    A small, fully computable instance of [ExternalLibs], the kind of mock a
    test of [app.py] would install.  The world is one bit: whether the
    network is up.  An image file is a tag byte ([R], [L] or [A] for the
    modes RGB, L and RGBA) followed by one byte per pixel of a one-row image;
    the vocabulary has two control tokens and two words. *)
Module Mock.

Definition open (data : list Byte.byte) (w : bool) : res Image * bool :=
  let bitmap rest := map (fun b => Z.of_N (Byte.to_N b)) rest in
  match data with
  | Byte.x52 :: rest => (Val (mk_Image "RGB" (Z.of_nat (length rest), 1%Z) (bitmap rest)), w)
  | Byte.x4c :: rest => (Val (mk_Image "L" (Z.of_nat (length rest), 1%Z) (bitmap rest)), w)
  | Byte.x41 :: rest => (Val (mk_Image "RGBA" (Z.of_nat (length rest), 1%Z) (bitmap rest)), w)
  | _ => (Exc (mk_exn UnidentifiedImageError "cannot identify image file"), w)
  end.

(** Converting loads the bitmap, and fails on one shorter than its size. *)
Definition convert (im : Image) (target : string) (w : bool) : res Image * bool :=
  if (Z.of_nat (length (pixels im)) <? fst (size im) * snd (size im))%Z
  then (Exc (mk_exn OSError "image file is truncated"), w)
  else (Val (mk_Image target (size im) (pixels im)), w).

Definition from_pretrained (handle : nat) (name : string) (w : bool) : res nat * bool :=
  if w then (Val handle, w)
  else (Exc (mk_exn OSError "We couldn't connect to 'https://huggingface.co' to load this file"), w).

Definition CLS : Z := 101.
Definition SEP : Z := 102.

Definition is_special (t : Z) : bool := (t =? CLS)%Z || (t =? SEP)%Z.

(** A black image gets no words at all; every other image is a cat. *)
Definition generate (m : nat) (inputs : Image) (max_length : Z) (grad_enabled : bool)
  (w : bool) : res (list (list Z)) * bool :=
  let seq := if forallb (Z.eqb 0) (pixels inputs)
             then [CLS; SEP]
             else [CLS; 1037%Z; 4937%Z; SEP] in
  if (max_length <? 0)%Z
  then (Exc (mk_exn ValueError "max_length must be non-negative"), w)
  else (Val [firstn (Z.to_nat max_length) seq], w).

Definition word (t : Z) : string :=
  if (t =? CLS)%Z then "[CLS]"
  else if (t =? SEP)%Z then "[SEP]"
  else if (t =? 1037)%Z then "a"
  else if (t =? 4937)%Z then "cat"
  else "[UNK]".

Definition decode (p : nat) (seq : list Z) (skip_special_tokens : bool) (w : bool)
  : res string * bool :=
  let kept := if skip_special_tokens
              then filter (fun t => negb (is_special t)) seq
              else seq in
  (Val (String.concat " " (map word kept)), w).

Definition cat_png : list Byte.byte := [Byte.x52; Byte.x07; Byte.x09].
Definition html_page : list Byte.byte := [Byte.x3c; Byte.x68; Byte.x74; Byte.x6d; Byte.x6c; Byte.x3e].

Definition get (url : string) (timeout : Z) (w : bool) : res Response * bool :=
  if negb w
  then (Exc (mk_exn ConnectionError "Failed to establish a new connection"), w)
  else if url =? "https://example.com/cat.png" then (Val (mk_Response 200 cat_png), w)
  else if url =? "https://example.com/index.html" then (Val (mk_Response 200 html_page), w)
  else (Val (mk_Response 404 []), w).

Definition raise_for_status (r : Response) (w : bool) : res unit * bool :=
  if ((400 <=? status_code r) && (status_code r <? 600))%Z
  then (Exc (mk_exn HTTPError "404 Client Error: Not Found for url"), w)
  else (Val tt, w).

#[export] Instance libs : ExternalLibs := {|
  World := bool;
  Processor := nat;
  Model := nat;
  Inputs := Image;
  BlipProcessor_from_pretrained := from_pretrained 1;
  BlipForConditionalGeneration_from_pretrained := from_pretrained 2;
  Image_open := open;
  Image_convert := convert;
  processor_call := fun _ im _ w => (Val im, w);
  model_generate := generate;
  processor_decode := decode;
  requests_get := get;
  Response_raise_for_status := raise_for_status;
  st_image_render := fun _ _ w => (Val tt, w)
|}.

(** The handles the two constructors give out. *)
Definition the_processor : Processor := 1%nat.
Definition the_model : Model := 2%nat.

(** Images and widget values for the examples. *)
Definition gray : Image := mk_Image "L" (2, 1)%Z [7; 9]%Z.
Definition rgb : Image := mk_Image "RGB" (2, 1)%Z [7; 9]%Z.
Definition black : Image := mk_Image "RGB" (2, 1)%Z [0; 0]%Z.
Definition truncated : Image := mk_Image "RGBA" (2, 2)%Z [7; 9]%Z.

Definition idle : UserInput := mk_UserInput None "" false None.
Definition upload : UserInput := mk_UserInput (Some cat_png) "" false None.
Definition by_url : UserInput :=
  mk_UserInput None "https://example.com/cat.png" true None.

Definition online : Proc := fresh true.
Definition offline : Proc := fresh false.

End Mock.

(** ** A display that cannot draw every image

    The stand-in of [Mock] with a [st.image] that raises on an image without
    pixels, and one more address that serves such an image. *)
Module Display.

Definition empty_png : list Byte.byte := [Byte.x52].

Definition get (url : string) (timeout : Z) (w : bool) : res Response * bool :=
  if andb w (url =? "https://example.com/empty.png")
  then (Val (mk_Response 200 empty_png), w)
  else Mock.get url timeout w.

Definition render (image : option Image) (caption : string) (w : bool)
  : res unit * bool :=
  match image with
  | Some im =>
      if (fst (size im) * snd (size im) =? 0)%Z
      then (Exc (mk_exn ValueError "cannot write empty image as PNG"), w)
      else (Val tt, w)
  | None => (Exc (mk_exn AttributeError "'NoneType' object has no attribute 'save'"), w)
  end.

#[export] Instance libs : ExternalLibs := {|
  World := bool;
  Processor := nat;
  Model := nat;
  Inputs := Image;
  BlipProcessor_from_pretrained := Mock.from_pretrained 1;
  BlipForConditionalGeneration_from_pretrained := Mock.from_pretrained 2;
  Image_open := Mock.open;
  Image_convert := Mock.convert;
  processor_call := fun _ im _ w => (Val im, w);
  model_generate := Mock.generate;
  processor_decode := Mock.decode;
  requests_get := get;
  Response_raise_for_status := Mock.raise_for_status;
  st_image_render := render
|}.

Definition empty : Image := mk_Image "RGB" (0, 1)%Z [].

Definition by_url : UserInput :=
  mk_UserInput None "https://example.com/empty.png" true None.

(** A process whose store holds a loaded model. *)
Definition warm : Proc := mk_Proc true (Some (Some 1%nat, Some 2%nat)) true [].

End Display.

(** * Proofs *)

Ltac unfold_py :=
  unfold generate_caption, generate_caption_body, load_image_from_url,
    load_model, load_model_body, cache_resource,
    try_except, bind, ret, raise, lib_call, with_no_grad, with_spinner,
    getitem0, st, stop, record, set_world, set_grad, set_cache.

Ltac break_inner x :=
  lazymatch x with
  | context [match ?y with _ => _ end] => break_inner y
  | _ => destruct x eqn:?
  end.

Ltac break_match :=
  match goal with
  | |- context [match ?x with _ => _ end] => break_inner x
  end.

Lemma prefix_nil : forall (A : Type) (l : list A), l = ([] ++ l)%list.
Proof. reflexivity. Qed.

Lemma prefix_cons :
  forall (A : Type) (x : A) (l new base : list A),
    l = (new ++ base)%list -> x :: l = ((x :: new) ++ base)%list.
Proof. intros; subst; reflexivity. Qed.

Ltac prefix := repeat first [apply prefix_nil | apply prefix_cons].

Ltac pairs :=
  repeat match goal with
         | H : (_, _) = (_, _) |- _ => inversion H; subst; clear H
         end.

Ltac step1 H :=
  let Hm := fresh "Hmode" in
  destruct H as [(Hm & ? & ?)|(Hm & H)];
  [ apply String.eqb_eq in Hm; subst | apply String.eqb_neq in Hm ];
  unfold_py; cbn; rewrite Hm; cbn; try rewrite H; cbn.

Ltac in_cases :=
  repeat match goal with
         | H : In _ (_ :: _) |- _ => destruct H as [H|H]; [try discriminate; try (inversion H; clear H; subst)|]
         | H : In _ [] |- _ => destruct H
         | H : In _ (_ ++ _) |- _ => apply in_app_or in H; destruct H as [H|H]
         end.

Ltac same_call :=
  match goal with
  | H1 : ?x = (?r1, ?w1), H2 : ?x = (?r2, ?w2) |- _ =>
      rewrite H1 in H2; inversion H2; clear H2; subst
  end.

Ltac relate Hc Hp Hg Hd :=
  match goal with
  | H1 : ?f ?wa = (?r1, _), H2 : ?f ?wb = (?r2, _) |- _ =>
      lazymatch r1 with r2 => fail | _ => idtac end;
      let W := fresh "W" in
      assert (W : world_independent f)
        by (first [apply Hc | apply Hp | apply Hg | apply Hd]);
      specialize (W wa wb); rewrite H1, H2 in W; cbn in W;
      try discriminate W; inversion W; clear W; subst
  end.

Section Pipeline.
Context {L : ExternalLibs}.

Lemma generate_caption_of_body :
  forall image processor model s,
    generate_caption image processor model s =
    match generate_caption_body image processor model s with
    | (Return caption, s') => (Return caption, s')
    | (Raised e, s') => (Return ("Error generating caption: " ++ exn_str e), s')
    | (Stopped, s') => (Stopped, s')
    end.
Proof.
  intros. unfold generate_caption, try_except, ret.
  destruct (generate_caption_body image processor model s) as [[c|e|] s']; reflexivity.
Qed.

Lemma body_never_stops :
  forall image processor model s,
    fst (generate_caption_body image processor model s) <> Stopped.
Proof.
  intros. unfold_py. cbn.
  repeat (break_match; cbn in *; try congruence).
Qed.


Lemma generate_caption_events :
  forall image processor model s,
  exists new,
    log (snd (generate_caption image processor model s)) = (new ++ log s)%list /\
    cache (snd (generate_caption image processor model s)) = cache s /\
    grad (snd (generate_caption image processor model s)) = grad s /\
    match image with
    | Some im => Forall (pipeline_event im processor model) new
    | None => new = []
    end.
Proof.
  intros. unfold_py. cbn.
  destruct image as [im|]; [|exists []; cbn; auto].
  destruct (negb (mode im =? "RGB")) eqn:Hmode.
  - apply negb_true_iff, String.eqb_neq in Hmode.
    repeat (break_match; cbn in *; try congruence); pairs; cbn;
      (eexists; split; [prefix | split; [reflexivity | split; [reflexivity|]]]);
      repeat constructor; cbn; auto;
      do 2 eexists; right; split; eauto.
  - apply negb_false_iff, String.eqb_eq in Hmode.
    repeat (break_match; cbn in *; try congruence); pairs; cbn;
      (eexists; split; [prefix | split; [reflexivity | split; [reflexivity|]]]);
      repeat constructor; cbn; auto;
      exists (world s), (world s); left; auto.
Qed.


Lemma body_None_image :
  forall processor model s,
    generate_caption_body None processor model s =
    (Raised (mk_exn AttributeError "'NoneType' object has no attribute 'mode'"), s).
Proof. reflexivity. Qed.

Lemma body_step1_raises :
  forall im processor model s e w,
    mode im <> "RGB" ->
    Image_convert im "RGB" (world s) = (Exc e, w) ->
    generate_caption_body (Some im) processor model s =
    (Raised e, set_world w (record (EvConvert im "RGB") s)).
Proof.
  intros im processor model s e w Hmode Hconv.
  apply String.eqb_neq in Hmode.
  unfold_py. cbn. rewrite Hmode. cbn. rewrite Hconv. reflexivity.
Qed.

Lemma body_step2_raises :
  forall im p model s im' w1 e w2,
    step1_yields im (world s) im' w1 ->
    processor_call p im' "pt" w1 = (Exc e, w2) ->
    fst (generate_caption_body (Some im) (Some p) model s) = Raised e.
Proof.
  intros im p model s im' w1 e w2 H1 H2.
  step1 H1; rewrite H2; reflexivity.
Qed.

Lemma body_step3_raises :
  forall im p m s im' w1 inputs w2 e w3,
    step1_yields im (world s) im' w1 ->
    processor_call p im' "pt" w1 = (Val inputs, w2) ->
    model_generate m inputs 50 false w2 = (Exc e, w3) ->
    fst (generate_caption_body (Some im) (Some p) (Some m) s) = Raised e.
Proof.
  intros im p m s im' w1 inputs w2 e w3 H1 H2 H3.
  step1 H1; rewrite H2; cbn; rewrite H3; reflexivity.
Qed.

Lemma body_step4_raises :
  forall im p m s im' w1 inputs w2 seq rest w3 e w4,
    step1_yields im (world s) im' w1 ->
    processor_call p im' "pt" w1 = (Val inputs, w2) ->
    model_generate m inputs 50 false w2 = (Val (seq :: rest), w3) ->
    processor_decode p seq true w3 = (Exc e, w4) ->
    fst (generate_caption_body (Some im) (Some p) (Some m) s) = Raised e.
Proof.
  intros im p m s im' w1 inputs w2 seq rest w3 e w4 H1 H2 H3 H4.
  step1 H1; rewrite H2; cbn; rewrite H3; cbn; rewrite H4; reflexivity.
Qed.

Lemma body_returns :
  forall im p m s im' w1 inputs w2 seq rest w3 caption w4,
    step1_yields im (world s) im' w1 ->
    processor_call p im' "pt" w1 = (Val inputs, w2) ->
    model_generate m inputs 50 false w2 = (Val (seq :: rest), w3) ->
    processor_decode p seq true w3 = (Val caption, w4) ->
    fst (generate_caption_body (Some im) (Some p) (Some m) s) = Return caption.
Proof.
  intros im p m s im' w1 inputs w2 seq rest w3 caption w4 H1 H2 H3 H4.
  step1 H1; rewrite H2; cbn; rewrite H3; cbn; rewrite H4; reflexivity.
Qed.

(** What a returning body went through. *)
Lemma body_returns_inv :
  forall image processor model s caption s',
    generate_caption_body image processor model s = (Return caption, s') ->
    exists im p m im' w1 inputs w2 seq rest w3,
      image = Some im /\ processor = Some p /\ model = Some m /\
      step1_yields im (world s) im' w1 /\
      processor_call p im' "pt" w1 = (Val inputs, w2) /\
      model_generate m inputs 50 false w2 = (Val (seq :: rest), w3) /\
      processor_decode p seq true w3 = (Val caption, world s') /\
      cache s' = cache s /\ grad s' = grad s /\
      log s' = (EvDecode p seq true :: EvGenerate m inputs 50 false
                :: EvProcessorCall p im' "pt" :: step1_log im ++ log s)%list.
Proof.
  intros image processor model s caption s'. unfold_py. unfold step1_log.
  destruct image as [im|]; [|discriminate].
  destruct (mode im =? "RGB") eqn:Hmode; cbn;
    pose proof Hmode as Hm;
    [apply String.eqb_eq in Hm | apply String.eqb_neq in Hm];
    repeat (break_match; cbn in *; try congruence); pairs;
    intros H; inversion H; subst; clear H;
    do 10 eexists; repeat (split; [reflexivity|]);
    (split; [first [left; eauto; fail | right; eauto]|]);
    rewrite Hmode; cbn; eauto 10.
Qed.

(** C1: for every image, processor and model, [generate_caption] returns a
    string and never raises or stops.  The string is the caption when the
    [try] block returns, and "Error generating caption: " followed by the
    message of the exception when the block raises; in particular when the
    processor (step 2), the model (step 3) or the decoder (step 4) raises. *)
Theorem generate_caption_never_raises :
  forall image processor model s,
  exists text s',
    generate_caption image processor model s = (Return text, s') /\
    match generate_caption_body image processor model s with
    | (Return caption, _) => text = caption
    | (Raised e, _) => text = "Error generating caption: " ++ exn_str e
    | (Stopped, _) => False
    end /\
    (forall im p m im' w1,
        image = Some im -> processor = Some p -> model = Some m ->
        step1_yields im (world s) im' w1 ->
        (forall e w2,
            processor_call p im' "pt" w1 = (Exc e, w2) ->
            text = "Error generating caption: " ++ exn_str e) /\
        (forall inputs w2 e w3,
            processor_call p im' "pt" w1 = (Val inputs, w2) ->
            model_generate m inputs 50 false w2 = (Exc e, w3) ->
            text = "Error generating caption: " ++ exn_str e) /\
        (forall inputs w2 seq rest w3 e w4,
            processor_call p im' "pt" w1 = (Val inputs, w2) ->
            model_generate m inputs 50 false w2 = (Val (seq :: rest), w3) ->
            processor_decode p seq true w3 = (Exc e, w4) ->
            text = "Error generating caption: " ++ exn_str e) /\
        (forall inputs w2 seq rest w3 caption w4,
            processor_call p im' "pt" w1 = (Val inputs, w2) ->
            model_generate m inputs 50 false w2 = (Val (seq :: rest), w3) ->
            processor_decode p seq true w3 = (Val caption, w4) ->
            text = caption)).
Proof.
  intros image processor model s.
  pose proof (body_never_stops image processor model s) as Hstop.
  pose proof (generate_caption_of_body image processor model s) as Hgc.
  destruct (generate_caption_body image processor model s) as [[caption|e|] s1] eqn:Hbody;
    [ exists caption, s1 | exists ("Error generating caption: " ++ exn_str e), s1
    | exfalso; apply Hstop; reflexivity ].
  - split; [exact Hgc|]. split; [reflexivity|].
    intros im p m im' w1 -> -> -> H1.
    repeat split; intros.
    + pose proof (body_step2_raises im p (Some m) s im' w1 _ _ H1 H) as E.
      rewrite Hbody in E. discriminate.
    + pose proof (body_step3_raises im p m s im' w1 _ _ _ _ H1 H H0) as E.
      rewrite Hbody in E. discriminate.
    + pose proof (body_step4_raises im p m s im' w1 _ _ _ _ _ _ _ H1 H H0 H2) as E.
      rewrite Hbody in E. discriminate.
    + pose proof (body_returns im p m s im' w1 _ _ _ _ _ _ _ H1 H H0 H2) as E.
      rewrite Hbody in E. cbn in E. congruence.
  - split; [exact Hgc|]. split; [reflexivity|].
    intros im p m im' w1 -> -> -> H1.
    repeat split; intros.
    + pose proof (body_step2_raises im p (Some m) s im' w1 _ _ H1 H) as E.
      rewrite Hbody in E. cbn in E. congruence.
    + pose proof (body_step3_raises im p m s im' w1 _ _ _ _ H1 H H0) as E.
      rewrite Hbody in E. cbn in E. congruence.
    + pose proof (body_step4_raises im p m s im' w1 _ _ _ _ _ _ _ H1 H H0 H2) as E.
      rewrite Hbody in E. cbn in E. congruence.
    + pose proof (body_returns im p m s im' w1 _ _ _ _ _ _ _ H1 H H0 H2) as E.
      rewrite Hbody in E. discriminate.
Qed.

(** C10: an exception of step 1 is caught like any other.  When the image
    is [None] the attribute error of [image.mode] comes back as an
    "Error generating caption: ..." string, and when [convert("RGB")] raises
    on a non-RGB image its message does. *)
Theorem step1_exceptions_are_caught :
  forall processor model s,
    generate_caption None processor model s =
    (Return "Error generating caption: 'NoneType' object has no attribute 'mode'", s) /\
    (forall im e w,
        mode im <> "RGB" ->
        Image_convert im "RGB" (world s) = (Exc e, w) ->
        generate_caption (Some im) processor model s =
        (Return ("Error generating caption: " ++ exn_str e),
         set_world w (record (EvConvert im "RGB") s))).
Proof.
  intros processor model s. split.
  - reflexivity.
  - intros im e w Hmode Hconv.
    rewrite generate_caption_of_body.
    rewrite (body_step1_raises im processor model s e w Hmode Hconv).
    reflexivity.
Qed.


(** C2: given that PIL's [convert] returns an image of the mode it was asked
    for, every image [generate_caption] passes to the processor has mode
    RGB, and what the model receives was made by the processor from such an
    image.  A non-RGB image is converted first (the conversion is the
    earliest call of the run, and the processor gets its result); an RGB
    image is passed as it is, with no conversion. *)
Theorem image_is_RGB_before_the_model :
  convert_yields_target_mode ->
  forall im processor model s,
  exists new,
    log (snd (generate_caption (Some im) processor model s)) = (new ++ log s)%list /\
    (forall p im0 rt, In (EvProcessorCall p im0 rt) new -> mode im0 = "RGB") /\
    (forall m inputs n g,
        In (EvGenerate m inputs n g) new ->
        exists p im0 w w',
          In (EvProcessorCall p im0 "pt") new /\
          processor_call p im0 "pt" w = (Val inputs, w')) /\
    (mode im <> "RGB" ->
     exists rest,
       new = (rest ++ [EvConvert im "RGB"])%list /\
       (forall ev, In ev rest -> is_convert ev = false) /\
       (forall p im0 rt,
           In (EvProcessorCall p im0 rt) rest ->
           exists w', Image_convert im "RGB" (world s) = (Val im0, w'))) /\
    (mode im = "RGB" ->
     (forall ev, In ev new -> is_convert ev = false) /\
     (forall p im0 rt, In (EvProcessorCall p im0 rt) new -> im0 = im)).
Proof.
  intros Hconv im processor model s. unfold_py. cbn.
  destruct (negb (mode im =? "RGB")) eqn:Hmode.
  - apply negb_true_iff, String.eqb_neq in Hmode.
    repeat (break_match; cbn in *; try congruence); pairs; cbn;
      (eexists; split; [prefix|]);
      (split; [intros; in_cases; eauto|]);
      (split; [intros; in_cases; do 4 eexists; (split; [cbn; eauto 6|eassumption])|]);
      (split; [|intros; congruence]);
      intros _;
      (eexists; split; [prefix|]);
      split; intros; in_cases; eauto.
  - apply negb_false_iff, String.eqb_eq in Hmode.
    repeat (break_match; cbn in *; try congruence); pairs; cbn;
      (eexists; split; [prefix|]);
      (split; [intros; in_cases; eauto|]);
      (split; [intros; in_cases; do 4 eexists; (split; [cbn; eauto 6|eassumption])|]);
      (split; [intros; congruence|]);
      intros _; split; intros; in_cases; eauto.
Qed.

(** C6: every call of [model.generate] made by [generate_caption] has
    [max_length] 50 and runs with gradients disabled, every call of
    [processor.decode] strips special tokens, and torch's gradient flag is
    put back afterwards.  When the pipeline succeeds, the caption is what the
    decoder made of the first sequence the model generated; that sequence has
    at most 50 tokens if the model respects [max_length]. *)
Theorem inference_settings :
  forall image processor model s,
  exists new,
    log (snd (generate_caption image processor model s)) = (new ++ log s)%list /\
    grad (snd (generate_caption image processor model s)) = grad s /\
    (forall m inputs n g,
        In (EvGenerate m inputs n g) new -> n = 50%Z /\ g = false) /\
    (forall p seq skip, In (EvDecode p seq skip) new -> skip = true) /\
    (forall caption s',
        generate_caption_body image processor model s = (Return caption, s') ->
        exists p m inputs w seq rest w' w'',
          processor = Some p /\ model = Some m /\
          In (EvGenerate m inputs 50 false) new /\
          model_generate m inputs 50 false w = (Val (seq :: rest), w') /\
          In (EvDecode p seq true) new /\
          processor_decode p seq true w' = (Val caption, w'') /\
          generate_caption image processor model s = (Return caption, s') /\
          (generate_respects_max_length -> (Z.of_nat (length seq) <= 50)%Z)).
Proof.
  intros image processor model s.
  destruct (generate_caption_events image processor model s)
    as (new & Hlog & _ & Hgrad & Hev).
  exists new. split; [exact Hlog|]. split; [exact Hgrad|].
  assert (Hall : forall ev, In ev new ->
                 exists im, image = Some im /\ pipeline_event im processor model ev).
  { intros ev Hin. destruct image as [im|]; [|subst; destruct Hin].
    exists im. split; [reflexivity|].
    rewrite Forall_forall in Hev. auto. }
  split; [|split].
  - intros m inputs n g Hin. apply Hall in Hin. destruct Hin as (im & _ & H).
    cbn in H. tauto.
  - intros p seq skip Hin. apply Hall in Hin. destruct Hin as (im & _ & H).
    cbn in H. tauto.
  - intros caption s' Hbody.
    pose proof (generate_caption_of_body image processor model s) as Hgc.
    rewrite Hbody in Hgc. rewrite Hgc in Hlog. cbn in Hlog.
    destruct (body_returns_inv _ _ _ _ _ _ Hbody)
      as (im & p & m & im' & w1 & inputs & w2 & seq & rest & w3 &
          -> & -> & -> & _ & _ & Hgen & Hdec & _ & _ & Hlog').
    rewrite Hlog' in Hlog.
    change (EvDecode p seq true :: EvGenerate m inputs 50 false
            :: EvProcessorCall p im' "pt" :: step1_log im ++ log s)%list
      with ((EvDecode p seq true :: EvGenerate m inputs 50 false
             :: EvProcessorCall p im' "pt" :: step1_log im) ++ log s)%list in Hlog.
    apply app_inv_tail in Hlog. subst new.
    exists p, m, inputs, w2, seq, rest, w3, (world s').
    repeat (split; [first [reflexivity | assumption | cbn; auto]|]).
    intros Hcap. apply Hcap in Hgen. inversion Hgen; subst; assumption.
Qed.

(** C7, amended: on an RGB image for which processing, inference and
    decoding succeed, [generate_caption] returns exactly the text the
    decoder gave for the first generated sequence, unchanged; whether it is
    empty or starts with "Error" is up to the model and the decoder. *)
Theorem caption_is_the_decoded_text :
  forall im p m s caption s',
    mode im = "RGB" ->
    generate_caption_body (Some im) (Some p) (Some m) s = (Return caption, s') ->
    generate_caption (Some im) (Some p) (Some m) s = (Return caption, s') /\
    exists inputs w2 seq rest w3,
      processor_call p im "pt" (world s) = (Val inputs, w2) /\
      model_generate m inputs 50 false w2 = (Val (seq :: rest), w3) /\
      processor_decode p seq true w3 = (Val caption, world s').
Proof.
  intros im p m s caption s' Hmode Hbody. split.
  - rewrite generate_caption_of_body, Hbody. reflexivity.
  - destruct (body_returns_inv _ _ _ _ _ _ Hbody)
      as (im0 & p0 & m0 & im' & w1 & inputs & w2 & seq & rest & w3 &
          Him & Hp & Hm & H1 & H2 & H3 & H4 & _).
    inversion Him; inversion Hp; inversion Hm; subst im0 p0 m0.
    destruct H1 as [(_ & -> & ->)|(Hne & _)]; [|contradiction].
    eauto 10.
Qed.

(** C9: [generate_caption] leaves the store of [st.cache_resource] and the
    gradient flag as they were; its result does not depend on the store, the
    flag or the log, only on its arguments and the outside world; and when
    the four library calls of the pipeline are functions of their arguments,
    two calls on the same image and handle return the same string, in any two
    states of the process. *)
Theorem generate_caption_is_stateless :
  forall image processor model s1 s2,
    (cache (snd (generate_caption image processor model s1)) = cache s1 /\
     grad (snd (generate_caption image processor model s1)) = grad s1) /\
    (world s1 = world s2 ->
     fst (generate_caption image processor model s1) =
     fst (generate_caption image processor model s2) /\
     world (snd (generate_caption image processor model s1)) =
     world (snd (generate_caption image processor model s2))) /\
    (pipeline_libs_are_functions ->
     fst (generate_caption image processor model s1) =
     fst (generate_caption image processor model s2)).
Proof.
  intros image processor model s1 s2. split; [|split].
  - destruct (generate_caption_events image processor model s1)
      as (new & _ & Hc & Hg & _). auto.
  - intros Hw. destruct s1 as [w1 c1 g1 l1], s2 as [w2 c2 g2 l2].
    cbn in Hw. subst w2. unfold_py. cbn.
    repeat (break_match; cbn in *; try congruence; pairs; repeat same_call);
      auto; try discriminate.
  - intros (Hc & Hp & Hg & Hd). unfold_py. cbn.
    repeat (break_match; cbn in *; unfold raise, ret in *;
            try congruence; pairs; repeat relate Hc Hp Hg Hd);
      try reflexivity; try discriminate.
Qed.
End Pipeline.

Section Acquire.
Context {L : ExternalLibs}.

(** C3: [load_image_from_url] always returns a pair with exactly one
    component absent, after exactly one [requests.get] with timeout 10 (no
    retry).  A request exception from [requests.get] (transport failure,
    timeout) or from [raise_for_status] (a status such as 404) gives no image
    and "Error fetching image: ..."; a body [Image.open] rejects gives no
    image and "Error opening image: ..."; otherwise the decoded image comes
    back with no error. *)
Theorem load_image_from_url_outcomes :
  forall url s,
  exists image error s',
    load_image_from_url url s = (Return (image, error), s') /\
    is_None image = negb (is_None error) /\
    (exists rest,
        log s' = (rest ++ EvRequestsGet url 10 :: log s)%list /\
        forall ev, In ev rest -> is_requests_get ev = false) /\
    (forall e w,
        requests_get url 10 (world s) = (Exc e, w) ->
        is_RequestException (exn_class_of e) = true ->
        image = None /\ error = Some ("Error fetching image: " ++ exn_str e)) /\
    (forall r w e w',
        requests_get url 10 (world s) = (Val r, w) ->
        Response_raise_for_status r w = (Exc e, w') ->
        is_RequestException (exn_class_of e) = true ->
        image = None /\ error = Some ("Error fetching image: " ++ exn_str e)) /\
    (forall r w w' e w'',
        requests_get url 10 (world s) = (Val r, w) ->
        Response_raise_for_status r w = (Val tt, w') ->
        Image_open (content r) w' = (Exc e, w'') ->
        is_RequestException (exn_class_of e) = false ->
        image = None /\ error = Some ("Error opening image: " ++ exn_str e)) /\
    (forall r w w' im w'',
        requests_get url 10 (world s) = (Val r, w) ->
        Response_raise_for_status r w = (Val tt, w') ->
        Image_open (content r) w' = (Val im, w'') ->
        image = Some im /\ error = None).
Proof.
  intros url s. unfold_py. cbn.
  repeat (break_match; cbn in *; try congruence); pairs; cbn;
    do 3 eexists; (split; [reflexivity|]); (split; [reflexivity|]);
    (split; [eexists; split; [prefix|]; intros; in_cases; reflexivity|]);
    repeat split; intros; pairs; try congruence;
    repeat match goal with u : unit |- _ => destruct u end; try congruence.
Qed.

(** C4: [load_model] never raises.  Its body returns the pair the
    constructors built when both succeed, and [(None, None)] after showing
    "Error loading model: ..." with [st.error] when either of them raises;
    on an empty store the decorated function returns the same and stores
    it. *)
Theorem load_model_never_raises :
  forall s,
    (exists v s', load_model s = (Return v, s')) /\
    (exists v s',
        load_model_body s = (Return v, s') /\
        v = constructed (world s) /\
        cache s' = cache s /\ grad s' = grad s /\
        match BlipProcessor_from_pretrained checkpoint (world s) with
        | (Exc e, w) =>
            v = (None, None) /\ world s' = w /\
            log s' = EvSt (st_error ("Error loading model: " ++ exn_str e))
                     :: EvProcessorFromPretrained checkpoint :: log s
        | (Val p, w) =>
            match BlipForConditionalGeneration_from_pretrained checkpoint w with
            | (Exc e, w') =>
                v = (None, None) /\ world s' = w' /\
                log s' = EvSt (st_error ("Error loading model: " ++ exn_str e))
                         :: EvModelFromPretrained checkpoint
                         :: EvProcessorFromPretrained checkpoint :: log s
            | (Val m, w') =>
                v = (Some p, Some m) /\ world s' = w' /\
                log s' = EvModelFromPretrained checkpoint
                         :: EvProcessorFromPretrained checkpoint :: log s
            end
        end /\
        (cache s = None -> load_model s = (Return v, set_cache (Some v) s'))).
Proof.
  intros s. split.
  - unfold_py. cbn. repeat (break_match; cbn in *; try congruence); pairs; eauto.
  - unfold load_model, cache_resource, constructed.
    unfold load_model_body, try_except, bind, ret, lib_call, st, record, set_world.
    cbn.
    destruct (BlipProcessor_from_pretrained checkpoint (world s)) as [[p|e] w] eqn:Hp; cbn.
    + destruct (BlipForConditionalGeneration_from_pretrained checkpoint w) as [[m|e] w'] eqn:Hm; cbn.
      * do 2 eexists. split; [reflexivity|]. cbn. repeat split; auto.
        intros ->. reflexivity.
      * do 2 eexists. split; [reflexivity|]. cbn. repeat split; auto.
        intros ->. reflexivity.
    + do 2 eexists. split; [reflexivity|]. cbn. repeat split; auto.
      intros ->. reflexivity.
Qed.

End Acquire.

Section Emits.
Context {L : ExternalLibs}.
Variable P : event -> Prop.

Lemma emits_ret : forall (A : Type) (a : A), emits P (ret a).
Proof. intros A a s. exists []. cbn. auto. Qed.

Lemma emits_raise : forall (A : Type) (e : exn), emits P (@raise _ A e).
Proof. intros A e s. exists []. cbn. auto. Qed.

Lemma emits_st : forall c, P (EvSt c) -> emits P (st c).
Proof. intros c Hc s. exists [EvSt c]. cbn. auto. Qed.

Lemma emits_stop : forall (A : Type), P (EvSt st_stop) -> emits P (@stop _ A).
Proof. intros A Hc s. exists [EvSt st_stop]. cbn. auto. Qed.

Lemma emits_lib_call :
  forall (A : Type) ev (f : World -> res A * World), P ev -> emits P (lib_call ev f).
Proof.
  intros A ev f Hev s. exists [ev]. unfold lib_call. cbn.
  destruct (f (world s)) as [[a|e] w]; cbn; auto.
Qed.

Lemma emits_bind :
  forall (A B : Type) (m : M A) (k : A -> M B),
    emits P m -> (forall a, emits P (k a)) -> emits P (bind m k).
Proof.
  intros A B m k Hm Hk s. unfold bind.
  destruct (Hm s) as (new1 & Hlog1 & HP1 & Hc1).
  destruct (m s) as [[a|e|] s1]; cbn in *; eauto.
  destruct (Hk a s1) as (new2 & Hlog2 & HP2 & Hc2).
  exists (new2 ++ new1)%list. rewrite Hlog2, Hlog1, Hc2, Hc1, app_assoc.
  repeat split; auto. apply Forall_app; auto.
Qed.

Lemma emits_try_except :
  forall (A : Type) (body : M A) (handler : exn -> M A),
    emits P body -> (forall e, emits P (handler e)) -> emits P (try_except body handler).
Proof.
  intros A body handler Hm Hk s. unfold try_except.
  destruct (Hm s) as (new1 & Hlog1 & HP1 & Hc1).
  destruct (body s) as [[a|e|] s1]; cbn in *; eauto.
  destruct (Hk e s1) as (new2 & Hlog2 & HP2 & Hc2).
  exists (new2 ++ new1)%list. rewrite Hlog2, Hlog1, Hc2, Hc1, app_assoc.
  repeat split; auto. apply Forall_app; auto.
Qed.

Lemma emits_with_spinner :
  forall (A : Type) text (m : M A),
    P (EvSt (st_spinner text)) -> emits P m -> emits P (with_spinner text m).
Proof.
  intros. unfold with_spinner. apply emits_bind; auto using emits_st.
Qed.

End Emits.

Lemma emits_weaken :
  forall {L : ExternalLibs} (A : Type) (P Q : event -> Prop) (m : M A),
    (forall ev, P ev -> Q ev) -> emits P m -> emits Q m.
Proof.
  intros L A P Q m HPQ Hm s. destruct (Hm s) as (new & Hlog & HP & Hc).
  exists new. repeat split; auto. eapply Forall_impl; eauto.
Qed.

Section Runs.
Context {L : ExternalLibs}.

Lemma emits_generate_caption :
  forall image processor model,
    emits (page_event processor model) (generate_caption image processor model).
Proof.
  intros image processor model s.
  destruct (generate_caption_events image processor model s)
    as (new & Hlog & Hc & _ & Hev).
  exists new. repeat split; auto.
  destruct image as [im|]; [|subst; constructor].
  eapply Forall_impl; [|exact Hev].
  intros [] H; cbn in H; try contradiction; unfold page_event; cbn; tauto.
Qed.

Lemma emits_load_image_from_url :
  forall processor model url,
    emits (page_event processor model) (load_image_from_url url).
Proof.
  intros. unfold load_image_from_url.
  apply emits_try_except.
  - repeat (apply emits_bind; intros);
      first [apply emits_lib_call | apply emits_ret]; unfold page_event; cbn; auto.
  - intros e. destruct (is_RequestException (exn_class_of e)); apply emits_ret.
Qed.

End Runs.

Ltac emits_step :=
  first [ apply emits_ret
        | apply emits_stop; [unfold page_event; cbn; auto]
        | apply emits_st; [unfold page_event; cbn; auto]
        | apply emits_lib_call; [unfold page_event; cbn; auto]
        | apply emits_generate_caption
        | apply emits_load_image_from_url
        | apply emits_with_spinner; [unfold page_event; cbn; auto|]
        | apply emits_try_except; [|intros]
        | apply emits_bind; [|intros] ].

Section Process.
Context {L : ExternalLibs}.

Lemma emits_show_caption :
  forall image label processor model,
    emits (page_event processor model) (show_caption image label processor model).
Proof. intros. unfold show_caption. repeat emits_step. Qed.

Lemma emits_tab1 :
  forall inp processor model,
    emits (page_event processor model) (tab1 inp processor model).
Proof.
  intros. unfold tab1. repeat emits_step.
  destruct (uploaded_file inp); repeat first [apply emits_show_caption | emits_step].
Qed.

Lemma emits_tab2 :
  forall inp processor model,
    emits (page_event processor model) (tab2 inp processor model).
Proof.
  intros. unfold tab2. repeat emits_step.
  destruct (url_button inp); [|emits_step].
  destruct (truthy (url_input inp)); repeat emits_step.
  match goal with a : (_ * _)%type |- _ => destruct a as [image error] end.
  destruct (truthy_opt error); repeat first [apply emits_show_caption | emits_step].
Qed.

Lemma emits_tab3 :
  forall inp processor model,
    emits (page_event processor model) (tab3 inp processor model).
Proof.
  intros. unfold tab3. repeat emits_step.
  destruct (camera_photo inp); repeat first [apply emits_show_caption | emits_step].
Qed.

Lemma emits_page :
  forall inp processor model,
    emits (page_event processor model) (page inp processor model).
Proof.
  intros. unfold page.
  apply emits_bind; [|intros].
  - destruct (is_None processor || is_None model); repeat emits_step.
  - repeat first [apply emits_tab1 | apply emits_tab2 | apply emits_tab3 | emits_step].
Qed.


Lemma count_app :
  forall f (l1 l2 : list event), count f (l1 ++ l2) = (count f l1 + count f l2)%nat.
Proof. intros. unfold count. rewrite filter_app, length_app. reflexivity. Qed.

Lemma count_none :
  forall f (l : list event), Forall (fun ev => f ev = false) l -> count f l = 0%nat.
Proof.
  intros f l H. unfold count. induction H as [|ev l Hev _ IH]; cbn; [reflexivity|].
  rewrite Hev. exact IH.
Qed.

Lemma load_model_hit :
  forall s v, cache s = Some v -> load_model s = (Return v, s).
Proof. intros s v H. unfold load_model, cache_resource. rewrite H. reflexivity. Qed.

Lemma load_model_miss :
  forall s,
    cache s = None ->
    exists s' new,
      load_model s = (Return (constructed (world s)), s') /\
      cache s' = Some (constructed (world s)) /\
      log s' = (new ++ log s)%list /\
      count is_processor_ctor new = 1%nat /\
      (count is_model_ctor new <= 1)%nat /\
      Forall (fun ev => is_request_event ev = false) new.
Proof.
  intros s Hc. unfold load_model, cache_resource, constructed. rewrite Hc.
  unfold load_model_body, try_except, bind, ret, lib_call, st, record, set_world, set_cache.
  cbn.
  destruct (BlipProcessor_from_pretrained checkpoint (world s)) as [[p|e] w]; cbn;
    [destruct (BlipForConditionalGeneration_from_pretrained checkpoint w) as [[m|e] w']; cbn|];
    do 2 eexists; (split; [reflexivity|]); cbn; (split; [reflexivity|]);
    (split; [prefix|]); cbn; repeat split; auto.
Qed.

Lemma page_event_uses_variables :
  forall processor model ev,
    page_event processor model ev -> uses_variables processor model ev.
Proof. unfold page_event. tauto. Qed.

Lemma quiet_uses_variables :
  forall processor model ev,
    is_request_event ev = false -> uses_variables processor model ev.
Proof. intros processor model [] H; cbn in *; auto; discriminate. Qed.

(** A run draws the header, then calls [load_model], then draws the page. *)
Lemma app_unfold :
  forall s inp,
  exists s4 pre,
    world s4 = world s /\ cache s4 = cache s /\
    log s4 = (pre ++ log s)%list /\
    Forall (fun ev => is_request_event ev = false) pre /\
    Forall (fun ev => is_processor_ctor ev = false) pre /\
    Forall (fun ev => is_model_ctor ev = false) pre /\
    app inp s =
    match load_model s4 with
    | (Return pm, s5) => page inp (fst pm) (snd pm) s5
    | (Raised e, s5) => (Raised e, s5)
    | (Stopped, s5) => (Stopped, s5)
    end.
Proof.
  intros s inp. unfold app, with_spinner.
  unfold bind at 1 2 3 4 5. unfold st. cbn -[load_model page].
  match goal with
  | |- context [load_model ?x] => exists x
  end.
  eexists.
  split; [reflexivity|]. split; [reflexivity|].
  split; [cbn; prefix|].
  split; [repeat constructor|]. split; [repeat constructor|]. split; [repeat constructor|].
  match goal with
  | |- context [load_model ?x] => destruct (load_model x) as [[[po mo]| |] s5]; reflexivity
  end.
Qed.

(** One run, from any state. *)
Lemma run_spec :
  forall s inp,
  exists new,
    log (run s inp) = (new ++ log s)%list /\
    cache (run s inp) = Some (loaded s) /\
    Forall (uses_variables (fst (loaded s)) (snd (loaded s))) new /\
    (count is_processor_ctor new <= if is_None (cache s) then 1 else 0)%nat /\
    (count is_model_ctor new <= if is_None (cache s) then 1 else 0)%nat.
Proof.
  intros s inp. unfold run, loaded.
  destruct (app_unfold s inp) as (s4 & pre & Hw4 & Hc4 & Hlog4 & Hq & Hpc & Hmc & ->).
  destruct (cache s) as [[po mo]|] eqn:Hc.
  - rewrite (load_model_hit s4 (po, mo)) by exact Hc4. cbn [fst snd is_None].
    destruct (emits_page inp po mo s4) as (new & Hlog & Hev & Hcache).
    exists (new ++ pre)%list. rewrite Hlog, Hlog4, Hcache, app_assoc.
    split; [reflexivity|]. split; [exact Hc4|].
    cbn [fst snd]. split; [|split].
    + apply Forall_app. split.
      * eapply Forall_impl; [|exact Hev]. apply page_event_uses_variables.
      * eapply Forall_impl; [|exact Hq]. intros; apply quiet_uses_variables; auto.
    + rewrite count_app, (count_none _ pre Hpc), (count_none _ new); [lia|].
      eapply Forall_impl; [|exact Hev]. unfold page_event; tauto.
    + rewrite count_app, (count_none _ pre Hmc), (count_none _ new); [lia|].
      eapply Forall_impl; [|exact Hev]. unfold page_event; tauto.
  - destruct (load_model_miss s4) as (s5 & mid & Hload & Hc5 & Hlog5 & Hp1 & Hm1 & Hq5);
      [exact Hc4|].
    rewrite Hload. rewrite Hw4 in *. cbn [is_None].
    destruct (constructed (world s)) as [po mo] eqn:Hcon.
    cbn [fst snd].
    destruct (emits_page inp po mo s5) as (new & Hlog & Hev & Hcache).
    exists (new ++ mid ++ pre)%list.
    rewrite Hlog, Hlog5, Hlog4, Hcache, !app_assoc.
    split; [reflexivity|]. split; [exact Hc5|].
    cbn [fst snd]. split; [|split].
    + rewrite <- app_assoc.
      apply Forall_app. split; [|apply Forall_app; split].
      * eapply Forall_impl; [|exact Hev]. apply page_event_uses_variables.
      * eapply Forall_impl; [|exact Hq5]. intros; apply quiet_uses_variables; auto.
      * eapply Forall_impl; [|exact Hq]. intros; apply quiet_uses_variables; auto.
    + rewrite !count_app, (count_none _ pre Hpc), (count_none _ new), Hp1; [lia|].
      eapply Forall_impl; [|exact Hev]. unfold page_event; tauto.
    + rewrite !count_app, (count_none _ pre Hmc), (count_none _ new); [lia|].
      eapply Forall_impl; [|exact Hev]. unfold page_event; tauto.
Qed.


Lemma run_cache_stable :
  forall s inp v, cache s = Some v -> cache (run s inp) = Some v.
Proof.
  intros s inp v Hc. destruct (run_spec s inp) as (new & _ & Hcache & _).
  rewrite Hcache. unfold loaded. rewrite Hc. reflexivity.
Qed.

Lemma run_settled :
  forall s inp, settled s -> settled (run s inp).
Proof.
  intros s inp (Hp & Hm & Hinv).
  destruct (run_spec s inp) as (new & Hlog & Hcache & Hev & Hnp & Hnm).
  unfold settled. rewrite Hcache, Hlog, !count_app.
  unfold loaded in *.
  destruct (cache s) as [[po mo]|] eqn:Hc; cbn [is_None fst snd] in *.
  - repeat split; try lia. apply Forall_app. auto.
  - rewrite Hinv in *. cbn in *. rewrite app_nil_r.
    destruct (constructed (world s)) as [po mo]. cbn [fst snd] in *.
    unfold count in *. cbn. repeat split; try lia. exact Hev.
Qed.

Lemma run_all_cache_stable :
  forall inps s v, cache s = Some v -> cache (run_all inps s) = Some v.
Proof.
  induction inps as [|inp inps IH]; intros s v Hc; cbn; [exact Hc|].
  apply IH. apply run_cache_stable. exact Hc.
Qed.

Lemma run_all_settled :
  forall inps s, settled s -> settled (run_all inps s).
Proof.
  induction inps as [|inp inps IH]; intros s Hs; cbn; [exact Hs|].
  apply IH. apply run_settled. exact Hs.
Qed.

Lemma fresh_settled : forall w, settled (fresh w).
Proof. intros w. unfold settled, fresh, count. cbn. repeat split; lia. Qed.

Lemma uses_variables_handle :
  forall p m ev, uses_variables (Some p) (Some m) ev -> uses_handle p m ev.
Proof. intros p m [] H; cbn in *; auto; congruence. Qed.

(** C5: over any number of runs of the script in one process, each of the
    two constructors is called at most once; after the first run the store
    holds what the constructors gave then, nothing ever changes or empties it,
    and every call of the pipeline goes to the stored processor and model.
    Once the store is filled, [load_model] returns the stored pair, which is
    the pair the constructors gave in the first run, and does nothing else:
    no call, no change of the process. *)
Theorem model_constructed_at_most_once :
  forall w inps,
    (count is_processor_ctor (log (run_all inps (fresh w))) <= 1)%nat /\
    (count is_model_ctor (log (run_all inps (fresh w))) <= 1)%nat /\
    (inps <> [] -> cache (run_all inps (fresh w)) = Some (constructed w)) /\
    (forall p m,
        cache (run_all inps (fresh w)) = Some (Some p, Some m) ->
        Forall (uses_handle p m) (log (run_all inps (fresh w)))) /\
    (forall v more,
        cache (run_all inps (fresh w)) = Some v ->
        cache (run_all more (run_all inps (fresh w))) = Some v) /\
    (forall v,
        cache (run_all inps (fresh w)) = Some v ->
        load_model (run_all inps (fresh w)) = (Return v, run_all inps (fresh w))) /\
    (inps <> [] ->
     forall more,
       load_model (run_all more (run_all inps (fresh w))) =
       (Return (constructed w), run_all more (run_all inps (fresh w)))).
Proof.
  intros w inps.
  destruct (run_all_settled inps (fresh w) (fresh_settled w)) as (Hp & Hm & Hinv).
  assert (Hfirst : inps <> [] -> cache (run_all inps (fresh w)) = Some (constructed w)).
  { destruct inps as [|inp inps]; [congruence|]. intros _. cbn.
    apply run_all_cache_stable.
    destruct (run_spec (fresh w) inp) as (new & _ & Hcache & _).
    rewrite Hcache. reflexivity. }
  split; [exact Hp|]. split; [exact Hm|]. split; [exact Hfirst|].
  split; [|split; [|split]].
  - intros p m Hc. rewrite Hc in Hinv.
    eapply Forall_impl; [|exact Hinv]. apply uses_variables_handle.
  - intros v more Hc. apply run_all_cache_stable. exact Hc.
  - intros v Hc. apply load_model_hit. exact Hc.
  - intros Hne more. apply load_model_hit.
    apply run_all_cache_stable. apply Hfirst. exact Hne.
Qed.

Lemma page_stops :
  forall inp processor model s,
    is_None processor || is_None model = true ->
    page inp processor model s =
    (Stopped, record (EvSt st_stop) (record (EvSt (st_error failed_to_load)) s)).
Proof.
  intros inp processor model s H. unfold page.
  unfold bind at 1. rewrite H. reflexivity.
Qed.

Lemma run_when_load_fails :
  forall s inp,
    load_fails s ->
    fst (app inp s) = Stopped /\
    load_fails (run s inp) /\
    exists new,
      log (run s inp) =
      EvSt st_stop :: EvSt (st_error failed_to_load) :: (new ++ log s)%list /\
      Forall (fun ev => is_request_event ev = false) new.
Proof.
  intros s inp Hf. unfold run, load_fails, loaded in *.
  destruct (app_unfold s inp) as (s4 & pre & Hw4 & Hc4 & Hlog4 & Hq & _ & _ & ->).
  destruct (cache s) as [[po mo]|] eqn:Hc.
  - rewrite (load_model_hit s4 (po, mo)) by exact Hc4. cbn [fst snd] in *.
    rewrite page_stops by exact Hf. cbn. rewrite Hc4, Hlog4.
    split; [reflexivity|]. split; [exact Hf|]. eauto.
  - destruct (load_model_miss s4 Hc4) as (s5 & mid & Hload & Hc5 & Hlog5 & _ & _ & Hq5).
    rewrite Hload. rewrite Hw4 in *.
    rewrite page_stops by exact Hf. cbn. rewrite Hc5, Hlog5, Hlog4, app_assoc.
    split; [reflexivity|]. split; [exact Hf|].
    eexists. split; [reflexivity|]. apply Forall_app. auto.
Qed.

(** C8: when [load_model] comes back with an absent processor or model,
    the run shows "Failed to load the model..." and stops, and so does every
    later run of the process; from then on no image is fetched, opened or
    shown and the pipeline is never called. *)
Theorem load_failure_is_fatal :
  forall s,
    load_fails s ->
    forall inps inp,
      fst (app inp (run_all inps s)) = Stopped /\
      (exists older,
          log (run (run_all inps s) inp) =
          EvSt st_stop :: EvSt (st_error failed_to_load) :: older) /\
      (exists new,
          log (run (run_all inps s) inp) = (new ++ log s)%list /\
          Forall (fun ev => is_request_event ev = false) new).
Proof.
  intros s Hf inps.
  assert (H : load_fails (run_all inps s) /\
              exists new, log (run_all inps s) = (new ++ log s)%list /\
                          Forall (fun ev => is_request_event ev = false) new).
  { revert s Hf. induction inps as [|i inps IH]; intros s Hf.
    - split; [exact Hf|]. exists []. split; [reflexivity|constructor].
    - change (run_all (i :: inps) s) with (run_all inps (run s i)).
      destruct (run_when_load_fails s i Hf) as (_ & Hf' & new1 & Hlog1 & Hq1).
      destruct (IH _ Hf') as (Hf'' & new2 & Hlog2 & Hq2).
      split; [exact Hf''|].
      exists (new2 ++ EvSt st_stop :: EvSt (st_error failed_to_load) :: new1)%list.
      rewrite Hlog2, Hlog1, <- app_assoc. split; [reflexivity|].
      apply Forall_app. split; [exact Hq2|]. repeat constructor. exact Hq1. }
  destruct H as (Hf' & new & Hlog & Hq).
  intros inp.
  destruct (run_when_load_fails _ inp Hf') as (Hstop & _ & new1 & Hlog1 & Hq1).
  split; [exact Hstop|]. split; [eauto|].
  exists (EvSt st_stop :: EvSt (st_error failed_to_load) :: new1 ++ new)%list.
  rewrite Hlog1, Hlog, app_assoc. split; [reflexivity|].
  repeat constructor. apply Forall_app. auto.
Qed.

End Process.

(** * The tabs and the run *)

Section Tabs.
Context {L : ExternalLibs}.

Lemma generate_caption_returns :
  forall image processor model s,
  exists text s',
    generate_caption image processor model s = (Return text, s').
Proof.
  intros. rewrite generate_caption_of_body.
  pose proof (body_never_stops image processor model s) as H.
  destruct (generate_caption_body image processor model s) as [[c|e|] s']; eauto.
  exfalso. apply H. reflexivity.
Qed.

(** What [show_caption] does once [st.image] has drawn the image. *)
Lemma show_caption_drawn :
  forall image label processor model s w,
    st_image_render image label (world s) = (Val tt, w) ->
    exists text s1,
      generate_caption image processor model
        (record (EvSt (st_spinner "Generating caption..."))
           (set_world w (record (EvSt (st_image image label))
                           (record (EvSt (st_columns 2)) s)))) =
      (Return text, s1) /\
      show_caption image label processor model s =
      (Return tt,
       record (EvSt (st_info text))
         (record (EvSt (st_markdown "### 💬 Caption:"))
            (record (EvSt (st_success "Caption Generated!")) s1))).
Proof.
  intros image label processor model s w Himg.
  match goal with
  | |- exists text s1, generate_caption _ _ _ ?s0 = _ /\ _ =>
      destruct (generate_caption_returns image processor model s0) as (text & s1 & Hgc)
  end.
  exists text, s1. split; [exact Hgc|].
  unfold show_caption, with_spinner, bind, st, lib_call. cbn -[generate_caption].
  rewrite Himg. unfold record, set_world in *. cbn -[generate_caption] in *.
  rewrite Hgc. reflexivity.
Qed.

Lemma show_caption_not_drawn :
  forall image label processor model s e w,
    st_image_render image label (world s) = (Exc e, w) ->
    show_caption image label processor model s =
    (Raised e,
     set_world w (record (EvSt (st_image image label))
                    (record (EvSt (st_columns 2)) s))).
Proof.
  intros image label processor model s e w Himg.
  unfold show_caption, with_spinner, bind, st, lib_call. cbn -[generate_caption].
  rewrite Himg. reflexivity.
Qed.


(** The [try] block the upload tab and the camera tab share: open, show,
    caption, and report whatever was raised. *)
Lemma file_block_spec :
  forall data label prefix processor model s,
  exists s',
    try_except
      (image <- lib_call (EvImageOpen data) (Image_open data) ;;
       show_caption (Some image) label processor model)
      (fun e => st (st_error (prefix ++ exn_str e))) s = (Return tt, s') /\
    file_tab_log data label prefix processor model (world s) (log s) (log s').
Proof.
  intros data label prefix processor model s.
  unfold file_tab_log, try_except. unfold bind at 1. unfold lib_call at 1.
  cbn -[show_caption].
  destruct (Image_open data (world s)) as [[im|e] w] eqn:Hopen.
  - set (s1 := set_world w (record (EvImageOpen data) s)).
    change (show_caption (Some im) label processor model _)
      with (show_caption (Some im) label processor model s1).
    destruct (st_image_render (Some im) label w) as [[[]|e] w'] eqn:Himg.
    + destruct (show_caption_drawn (Some im) label processor model s1 w' Himg)
        as (text & s2 & Hgc & ->).
      eexists. split; [reflexivity|].
      match type of Hgc with
      | generate_caption _ _ _ ?s0 = _ =>
          destruct (generate_caption_events (Some im) processor model s0)
            as (new & Hlog & _ & _ & Hev);
          rewrite Hgc in Hlog; cbn in Hlog;
          exists text, new; split; [cbn; rewrite Hlog; reflexivity|];
          split; [exact Hev|];
          exists s0; split; [reflexivity | rewrite Hgc; reflexivity]
      end.
    + rewrite (show_caption_not_drawn (Some im) label processor model s1 e w' Himg).
      eexists. split; [reflexivity|]. reflexivity.
  - eexists. split; [reflexivity|]. reflexivity.
Qed.


(** X1: the upload tab never raises and never stops the run.  Without a
    file it only draws its two widgets.  With a file it opens it, and then
    either reports what [Image.open] or [st.image] raised as "Error
    processing uploaded file: ...", or shows the image and the three lines
    of a caption, the text being what [generate_caption] returned on the
    opened image. *)
Theorem upload_tab_never_raises :
  forall inp processor model s,
  exists s',
    tab1 inp processor model s = (Return tt, s') /\
    match uploaded_file inp with
    | None => log s' = (tab1_widgets ++ log s)%list /\ world s' = world s
    | Some data =>
        file_tab_log data "Uploaded Image" "Error processing uploaded file: "
          processor model (world s) (tab1_widgets ++ log s)%list (log s')
    end.
Proof.
  intros inp processor model s. unfold tab1.
  unfold bind at 1 2. unfold st at 1 2. cbn -[try_except show_caption].
  destruct (uploaded_file inp) as [data|].
  - match goal with
    | |- exists s', try_except _ _ ?s0 = _ /\ _ =>
        destruct (file_block_spec data "Uploaded Image"
                    "Error processing uploaded file: " processor model s0)
          as (s' & Hrun & Hlog)
    end.
    exists s'. split; [exact Hrun | exact Hlog].
  - eexists. split; [reflexivity|]. split; reflexivity.
Qed.

(** X2: the camera tab never raises and never stops the run.  Without a
    photo it only draws its three widgets.  With a photo it opens it, and
    then either reports what [Image.open] or [st.image] raised as "Error
    processing camera photo: ...", or shows the image and the three lines of
    a caption, the text being what [generate_caption] returned on the opened
    image. *)
Theorem camera_tab_never_raises :
  forall inp processor model s,
  exists s',
    tab3 inp processor model s = (Return tt, s') /\
    match camera_photo inp with
    | None => log s' = (tab3_widgets ++ log s)%list /\ world s' = world s
    | Some data =>
        file_tab_log data "Captured Photo" "Error processing camera photo: "
          processor model (world s) (tab3_widgets ++ log s)%list (log s')
    end.
Proof.
  intros inp processor model s. unfold tab3.
  unfold bind at 1 2 3. unfold st at 1 2 3. cbn -[try_except show_caption].
  destruct (camera_photo inp) as [data|].
  - match goal with
    | |- exists s', try_except _ _ ?s0 = _ /\ _ =>
        destruct (file_block_spec data "Captured Photo"
                    "Error processing camera photo: " processor model s0)
          as (s' & Hrun & Hlog)
    end.
    exists s'. split; [exact Hrun | exact Hlog].
  - eexists. split; [reflexivity|]. split; reflexivity.
Qed.


Lemma load_image_from_url_fetched :
  forall url s r w1 w2 im w3,
    requests_get url 10 (world s) = (Val r, w1) ->
    Response_raise_for_status r w1 = (Val tt, w2) ->
    Image_open (content r) w2 = (Val im, w3) ->
    load_image_from_url url s =
    (Return (Some im, None),
     set_world w3 (record (EvImageOpen (content r))
                     (record (EvRaiseForStatus r)
                        (record (EvRequestsGet url 10) s)))).
Proof.
  intros url s r w1 w2 im w3 Hget Hst Hopen.
  unfold load_image_from_url, try_except, bind, lib_call, ret. cbn.
  rewrite Hget. cbn. rewrite Hst. cbn. rewrite Hopen. reflexivity.
Qed.

Lemma tab2_image_failure :
  forall inp processor model s r w1 w2 im w3 e w4,
    url_button inp = true ->
    truthy (url_input inp) = true ->
    requests_get (url_input inp) 10 (world s) = (Val r, w1) ->
    Response_raise_for_status r w1 = (Val tt, w2) ->
    Image_open (content r) w2 = (Val im, w3) ->
    st_image_render (Some im) "Image from URL" w3 = (Exc e, w4) ->
    exists s',
      tab2 inp processor model s = (Raised e, s') /\
      exists rest, log s' = EvSt (st_image (Some im) "Image from URL") :: rest.
Proof.
  intros inp processor model s r w1 w2 im w3 e w4 Hb Hu Hget Hst Hopen Himg.
  unfold tab2. rewrite Hb, Hu.
  unfold bind at 1 2 3. unfold st at 1 2 3.
  cbn -[load_image_from_url show_caption].
  unfold with_spinner. unfold bind at 1 2. unfold st at 1.
  cbn -[load_image_from_url show_caption].
  erewrite load_image_from_url_fetched by eassumption.
  cbn -[show_caption].
  erewrite show_caption_not_drawn by (cbn; eassumption).
  eexists. split; [reflexivity|]. cbn. eauto.
Qed.

(** X3: in the URL tab [st.image] is called outside any [try].  When the
    model is in the store, nothing was uploaded, the button was clicked on a
    non-empty URL, the image was fetched and opened, and [st.image] raises
    [e] on it, the whole run ends with [e] raised, and the call of
    [st.image] is the last thing the run did: the camera tab and the footer
    are not reached. *)
Theorem url_tab_image_failure_ends_the_run :
  forall inp s p m r w1 w2 im w3 e w4,
    cache s = Some (Some p, Some m) ->
    uploaded_file inp = None ->
    url_button inp = true ->
    truthy (url_input inp) = true ->
    requests_get (url_input inp) 10 (world s) = (Val r, w1) ->
    Response_raise_for_status r w1 = (Val tt, w2) ->
    Image_open (content r) w2 = (Val im, w3) ->
    st_image_render (Some im) "Image from URL" w3 = (Exc e, w4) ->
    fst (app inp s) = Raised e /\
    exists rest,
      log (run s inp) = EvSt (st_image (Some im) "Image from URL") :: rest.
Proof.
  intros inp s p m r w1 w2 im w3 e w4 Hc Hup Hb Hu Hget Hst Hopen Himg.
  assert (Happ : exists s',
             app inp s = (Raised e, s') /\
             exists rest, log s' = EvSt (st_image (Some im) "Image from URL") :: rest).
  { destruct (app_unfold s inp) as (s4 & pre & Hw4 & Hc4 & _ & _ & _ & _ & ->).
    rewrite (load_model_hit s4 (Some p, Some m)) by (rewrite Hc4; exact Hc).
    cbn [fst snd]. unfold page. cbn [is_None orb].
    unfold bind at 1 2 3 4. unfold ret at 1. unfold st at 1 2.
    unfold tab1. rewrite Hup.
    unfold bind at 1 2 3. unfold st at 1 2. unfold ret at 1.
    cbn -[tab2 tab3].
    match goal with
    | |- context [tab2 inp (Some p) (Some m) ?s0] =>
        destruct (tab2_image_failure inp (Some p) (Some m) s0 r w1 w2 im w3 e w4)
          as (s' & Htab & rest & Hlog); auto; [cbn; rewrite Hw4; exact Hget|];
        rewrite Htab
    end.
    eauto. }
  destruct Happ as (s' & Happ & Hlog).
  unfold run. rewrite Happ. split; [reflexivity | exact Hlog].
Qed.


(** X5: when [st.image] has drawn the image and the body of
    [generate_caption] raises [e], the block of a tab still returns, still
    announces "Caption Generated!" with [st.success], and shows "Error
    generating caption: ..." with [st.info], as if it were the caption. *)
Theorem pipeline_failure_is_shown_as_a_caption :
  forall image label processor model s w e s2,
    st_image_render image label (world s) = (Val tt, w) ->
    generate_caption_body image processor model
      (record (EvSt (st_spinner "Generating caption..."))
         (set_world w (record (EvSt (st_image image label))
                         (record (EvSt (st_columns 2)) s)))) = (Raised e, s2) ->
    exists s',
      show_caption image label processor model s = (Return tt, s') /\
      log s' = EvSt (st_info ("Error generating caption: " ++ exn_str e))
               :: EvSt (st_markdown "### 💬 Caption:")
               :: EvSt (st_success "Caption Generated!") :: log s2.
Proof.
  intros image label processor model s w e s2 Himg Hbody.
  destruct (show_caption_drawn image label processor model s w Himg)
    as (text & s1 & Hgc & Hshow).
  rewrite generate_caption_of_body, Hbody in Hgc. inversion Hgc; subst.
  eexists. split; [exact Hshow | reflexivity].
Qed.



Lemma load_image_from_url_returns :
  forall url s,
  exists image error s',
    load_image_from_url url s = (Return (image, error), s') /\
    (truthy_opt error = false -> exists im, image = Some im).
Proof.
  intros url s. unfold_py. cbn.
  repeat (break_match; cbn in *; try congruence); pairs;
    do 3 eexists; (split; [reflexivity|]); cbn; intros; try discriminate; eauto.
Qed.





Lemma emits_bind_when :
  forall (A B : Type) (P : event -> Prop) (Q : A -> Prop) (m : M A) (k : A -> M B),
    emits P m ->
    (forall s a s', m s = (Return a, s') -> Q a) ->
    (forall a, Q a -> emits P (k a)) ->
    emits P (bind m k).
Proof.
  intros A B P Q m k Hm HQ Hk s. unfold bind.
  destruct (Hm s) as (new1 & Hlog1 & HP1 & Hc1).
  destruct (m s) as [[a|e|] s1] eqn:Hms; cbn in *; eauto.
  destruct (Hk a (HQ _ _ _ Hms) s1) as (new2 & Hlog2 & HP2 & Hc2).
  exists (new2 ++ new1)%list. rewrite Hlog2, Hlog1, Hc2, Hc1, app_assoc.
  repeat split; auto. apply Forall_app; auto.
Qed.

Lemma emits_pipeline :
  forall (P : event -> Prop) image processor model,
    (forall im ev, pipeline_event im processor model ev -> P ev) ->
    emits P (generate_caption image processor model).
Proof.
  intros P image processor model HP s.
  destruct (generate_caption_events image processor model s)
    as (new & Hlog & Hc & _ & Hev).
  exists new. repeat split; auto.
  destruct image as [im|]; [|subst; constructor].
  eapply Forall_impl; [|exact Hev]. apply HP.
Qed.

End Tabs.

Ltac emits_with solve_event :=
  first [ apply emits_ret
        | apply emits_stop; [solve_event]
        | apply emits_st; [solve_event]
        | apply emits_lib_call; [solve_event]
        | apply emits_with_spinner; [solve_event|]
        | apply emits_try_except; [|intros]
        | apply emits_bind; [|intros] ].

Ltac run_event_ok :=
  solve [ cbn; auto 6
        | cbn; split; [discriminate | assumption] ].

Ltac no_get_ok := solve [cbn; reflexivity].

Section Widgets.
Context {L : ExternalLibs}.

Lemma pipeline_event_run_event :
  forall inp im processor model ev,
    has_input inp -> pipeline_event im processor model ev -> run_event inp ev.
Proof. intros inp im processor model [] Hin H; cbn in *; auto; contradiction. Qed.

Lemma pipeline_event_no_get :
  forall im processor model ev,
    pipeline_event im processor model ev -> is_requests_get ev = false.
Proof. intros im processor model [] H; cbn in *; auto; contradiction. Qed.

Lemma show_caption_run_events :
  forall inp im label processor model,
    has_input inp ->
    emits (run_event inp) (show_caption (Some im) label processor model).
Proof.
  intros inp im label processor model Hin. unfold show_caption.
  repeat first
    [ apply emits_pipeline; intros; eapply pipeline_event_run_event; eassumption
    | emits_with run_event_ok ].
Qed.

Lemma show_caption_no_get :
  forall image label processor model,
    emits (fun ev => is_requests_get ev = false)
      (show_caption image label processor model).
Proof.
  intros. unfold show_caption.
  repeat first
    [ apply emits_pipeline; intros; eapply pipeline_event_no_get; eassumption
    | emits_with no_get_ok ].
Qed.

Lemma tab1_run_events :
  forall inp processor model, emits (run_event inp) (tab1 inp processor model).
Proof.
  intros. unfold tab1. do 2 (apply emits_bind; [emits_with run_event_ok|intros]).
  destruct (uploaded_file inp) as [data|] eqn:Hup; [|apply emits_ret].
  assert (Hin : has_input inp) by (left; congruence).
  apply emits_try_except; [|intros; emits_with run_event_ok].
  apply emits_bind; [emits_with run_event_ok|intros].
  apply show_caption_run_events. exact Hin.
Qed.

Lemma tab3_run_events :
  forall inp processor model, emits (run_event inp) (tab3 inp processor model).
Proof.
  intros. unfold tab3. do 3 (apply emits_bind; [emits_with run_event_ok|intros]).
  destruct (camera_photo inp) as [data|] eqn:Hup; [|apply emits_ret].
  assert (Hin : has_input inp) by (right; left; congruence).
  apply emits_try_except; [|intros; emits_with run_event_ok].
  apply emits_bind; [emits_with run_event_ok|intros].
  apply show_caption_run_events. exact Hin.
Qed.

Lemma tab1_no_get :
  forall inp processor model,
    emits (fun ev => is_requests_get ev = false) (tab1 inp processor model).
Proof.
  intros. unfold tab1. do 2 (apply emits_bind; [emits_with no_get_ok|intros]).
  destruct (uploaded_file inp) as [data|]; [|apply emits_ret].
  repeat first [apply show_caption_no_get | emits_with no_get_ok].
Qed.

Lemma tab3_no_get :
  forall inp processor model,
    emits (fun ev => is_requests_get ev = false) (tab3 inp processor model).
Proof.
  intros. unfold tab3. do 3 (apply emits_bind; [emits_with no_get_ok|intros]).
  destruct (camera_photo inp) as [data|]; [|apply emits_ret].
  repeat first [apply show_caption_no_get | emits_with no_get_ok].
Qed.

Lemma load_image_from_url_run_events :
  forall inp,
    url_button inp = true ->
    truthy (url_input inp) = true ->
    emits (run_event inp) (load_image_from_url (url_input inp)).
Proof.
  intros inp Hb Hu. unfold load_image_from_url.
  apply emits_try_except.
  - repeat (apply emits_bind; [|intros]);
      first [apply emits_ret | apply emits_lib_call; cbn; auto].
  - intros e. destruct (is_RequestException (exn_class_of e)); apply emits_ret.
Qed.

Lemma tab2_run_events :
  forall inp processor model, emits (run_event inp) (tab2 inp processor model).
Proof.
  intros. unfold tab2. do 3 (apply emits_bind; [emits_with run_event_ok|intros]).
  destruct (url_button inp) eqn:Hb; [|apply emits_ret].
  destruct (truthy (url_input inp)) eqn:Hu; [|emits_with run_event_ok].
  assert (Hin : has_input inp) by (right; right; exact Hb).
  apply emits_bind_when
    with (Q := fun r => truthy_opt (snd r) = false -> exists im, fst r = Some im).
  - apply emits_with_spinner; [cbn; auto|].
    apply load_image_from_url_run_events; assumption.
  - intros s [image error] s'. unfold with_spinner, bind, st.
    cbn -[load_image_from_url].
    match goal with
    | |- context [load_image_from_url ?u ?s0] =>
        destruct (load_image_from_url_returns u s0) as (i0 & e0 & s1 & Hload & Himage);
        rewrite Hload
    end.
    intros H; inversion H; subst. exact Himage.
  - intros [image error] HQ. cbn [fst snd] in HQ.
    destruct (truthy_opt error) eqn:He; [emits_with run_event_ok|].
    destruct (HQ eq_refl) as (im & ->).
    apply show_caption_run_events. exact Hin.
Qed.

Lemma page_run_events :
  forall inp processor model, emits (run_event inp) (page inp processor model).
Proof.
  intros. unfold page.
  apply emits_bind; [|intros].
  - destruct (is_None processor || is_None model);
      repeat emits_with run_event_ok.
  - repeat first [ apply tab1_run_events | apply tab2_run_events
                 | apply tab3_run_events | emits_with run_event_ok ].
Qed.


Lemma gets_of_emits :
  forall (A : Type) (m : M A),
    emits (fun ev => is_requests_get ev = false) m -> gets 0 m.
Proof.
  intros A m Hm s. destruct (Hm s) as (new & Hlog & Hev & _).
  exists new. split; [exact Hlog|]. rewrite (count_none _ new Hev). lia.
Qed.

Lemma gets_bind :
  forall (A B : Type) (a b : nat) (m : M A) (k : A -> M B),
    gets a m -> (forall x, gets b (k x)) -> gets (a + b) (bind m k).
Proof.
  intros A B a b m k Hm Hk s. unfold bind.
  destruct (Hm s) as (new1 & Hlog1 & Hn1).
  destruct (m s) as [[x|e|] s1]; cbn in *;
    try (exists new1; split; [exact Hlog1 | lia]).
  destruct (Hk x s1) as (new2 & Hlog2 & Hn2).
  exists (new2 ++ new1)%list. rewrite Hlog2, Hlog1, app_assoc, count_app.
  split; [reflexivity | lia].
Qed.

Lemma gets_weaken :
  forall (A : Type) (a b : nat) (m : M A), (a <= b)%nat -> gets a m -> gets b m.
Proof.
  intros A a b m Hab Hm s. destruct (Hm s) as (new & Hlog & Hn).
  exists new. split; [exact Hlog | lia].
Qed.

Lemma load_image_from_url_gets : forall url, gets 1 (load_image_from_url url).
Proof.
  intros url s. unfold_py. cbn.
  repeat (break_match; cbn in *; try congruence); pairs; cbn;
    (eexists; split; [prefix|]); cbn; lia.
Qed.

Lemma gets_quiet :
  forall (A : Type) (n : nat) (m : M A),
    emits (fun ev => is_requests_get ev = false) m -> gets n m.
Proof.
  intros A n m Hm. apply (gets_weaken _ 0 n); [lia|].
  apply gets_of_emits. exact Hm.
Qed.

Lemma tab2_gets : forall inp processor model, gets 1 (tab2 inp processor model).
Proof.
  intros. unfold tab2.
  do 3 (apply (gets_bind _ _ 0 1);
        [apply gets_quiet; apply emits_st; reflexivity | intros]).
  destruct (url_button inp); [|apply gets_quiet, emits_ret].
  destruct (truthy (url_input inp));
    [|apply gets_quiet, emits_st; reflexivity].
  apply (gets_bind _ _ 1 0).
  - unfold with_spinner. apply (gets_bind _ _ 0 1).
    + apply gets_quiet, emits_st. reflexivity.
    + intros. apply load_image_from_url_gets.
  - intros [image error].
    destruct (truthy_opt error); apply gets_quiet;
      [apply emits_st; reflexivity | apply show_caption_no_get].
Qed.

Lemma page_gets : forall inp processor model, gets 1 (page inp processor model).
Proof.
  intros. unfold page.
  apply (gets_bind _ _ 0 1).
  { apply gets_quiet.
    destruct (is_None processor || is_None model); repeat emits_with no_get_ok. }
  intros. do 2 (apply (gets_bind _ _ 0 1);
                [apply gets_quiet, emits_st; reflexivity | intros]).
  apply (gets_bind _ _ 0 1); [apply gets_quiet, tab1_no_get | intros].
  apply (gets_bind _ _ 1 0); [apply tab2_gets | intros].
  apply gets_quiet. repeat first [apply tab3_no_get | emits_with no_get_ok].
Qed.

(** The events of a run, from those of the page. *)
Lemma run_emits :
  forall (P : event -> Prop) inp,
    (forall ev, is_request_event ev = false -> P ev) ->
    (forall processor model, emits P (page inp processor model)) ->
    forall s,
    exists new, log (run s inp) = (new ++ log s)%list /\ Forall P new.
Proof.
  intros P inp Hquiet Hpage s. unfold run.
  destruct (app_unfold s inp) as (s4 & pre & Hw4 & Hc4 & Hlog4 & Hq & _ & _ & ->).
  assert (Hload : exists s5 mid,
             load_model s4 = (Return (loaded s), s5) /\
             log s5 = (mid ++ log s4)%list /\
             Forall (fun ev => is_request_event ev = false) mid).
  { unfold loaded. destruct (cache s) as [v|] eqn:Hc.
    - rewrite (load_model_hit s4 v) by (rewrite Hc4; reflexivity).
      exists s4, []. repeat split; auto.
    - destruct (load_model_miss s4) as (s5 & mid & Hl & _ & Hlog5 & _ & _ & Hq5);
        [exact Hc4|].
      rewrite Hw4 in Hl. eauto. }
  destruct Hload as (s5 & mid & -> & Hlog5 & Hq5).
  destruct (Hpage (fst (loaded s)) (snd (loaded s)) s5) as (new & Hlog & Hev & _).
  exists (new ++ mid ++ pre)%list.
  rewrite Hlog, Hlog5, Hlog4, !app_assoc. split; [reflexivity|].
  rewrite <- app_assoc. apply Forall_app. split; [exact Hev|].
  apply Forall_app. split; (eapply Forall_impl; [exact Hquiet|]); assumption.
Qed.

Lemma quiet_run_event :
  forall inp ev, is_request_event ev = false -> run_event inp ev.
Proof.
  intros inp [] H; cbn in *; try discriminate; auto.
  destruct c; cbn in *; try discriminate; auto.
Qed.

Lemma quiet_no_get :
  forall ev, is_request_event ev = false -> is_requests_get ev = false.
Proof. intros [] H; cbn in *; try discriminate; auto. Qed.

Lemma run_gets :
  forall inp s,
  exists new,
    log (run s inp) = (new ++ log s)%list /\
    (count is_requests_get new <= 1)%nat.
Proof.
  intros inp s. unfold run.
  destruct (app_unfold s inp) as (s4 & pre & Hw4 & Hc4 & Hlog4 & Hq & _ & _ & ->).
  assert (Hload : exists s5 mid,
             load_model s4 = (Return (loaded s), s5) /\
             log s5 = (mid ++ log s4)%list /\
             Forall (fun ev => is_request_event ev = false) mid).
  { unfold loaded. destruct (cache s) as [v|] eqn:Hc.
    - rewrite (load_model_hit s4 v) by (rewrite Hc4; reflexivity).
      exists s4, []. repeat split; auto.
    - destruct (load_model_miss s4) as (s5 & mid & Hl & _ & Hlog5 & _ & _ & Hq5);
        [exact Hc4|].
      rewrite Hw4 in Hl. eauto. }
  destruct Hload as (s5 & mid & -> & Hlog5 & Hq5).
  destruct (page_gets inp (fst (loaded s)) (snd (loaded s)) s5) as (new & Hlog & Hn).
  exists (new ++ mid ++ pre)%list.
  rewrite Hlog, Hlog5, Hlog4, !app_assoc. split; [reflexivity|].
  rewrite <- app_assoc, !count_app.
  rewrite (count_none _ mid), (count_none _ pre); [lia| |];
    (eapply Forall_impl; [apply quiet_no_get|]); assumption.
Qed.

(** X4: one run of the script calls [requests.get] at most once, and only
    after a click on the button with a non-empty URL typed in; the call is
    for that URL, with a timeout of 10 seconds. *)
Theorem network_only_on_click :
  forall s inp,
  exists new,
    log (run s inp) = (new ++ log s)%list /\
    (count is_requests_get new <= 1)%nat /\
    (forall url timeout,
        In (EvRequestsGet url timeout) new ->
        url_button inp = true /\ truthy (url_input inp) = true /\
        url = url_input inp /\ timeout = 10%Z).
Proof.
  intros s inp.
  destruct (run_gets inp s) as (new & Hlog & Hn).
  destruct (run_emits (run_event inp) inp (quiet_run_event inp)
              (page_run_events inp) s) as (new' & Hlog' & Hev).
  rewrite Hlog in Hlog'. apply app_inv_tail in Hlog'. subst new'.
  exists new. split; [exact Hlog|]. split; [exact Hn|].
  intros url timeout Hin. rewrite Forall_forall in Hev.
  exact (Hev _ Hin).
Qed.

(** X7: the bytes a run hands to [Image.open] are the uploaded file, the
    camera photo, or come after a click on a non-empty URL; and [st.image]
    is never called with [None] for an image. *)
Theorem only_the_users_images :
  forall s inp,
  exists new,
    log (run s inp) = (new ++ log s)%list /\
    (forall data,
        In (EvImageOpen data) new ->
        uploaded_file inp = Some data \/ camera_photo inp = Some data \/
        (url_button inp = true /\ truthy (url_input inp) = true)) /\
    (forall image caption,
        In (EvSt (st_image image caption)) new -> exists im, image = Some im).
Proof.
  intros s inp.
  destruct (run_emits (run_event inp) inp (quiet_run_event inp)
              (page_run_events inp) s) as (new & Hlog & Hev).
  exists new. split; [exact Hlog|].
  rewrite Forall_forall in Hev. split.
  - intros data Hin. exact (Hev _ Hin).
  - intros image caption Hin. destruct (Hev _ Hin) as (Hne & _).
    destruct image as [im|]; [eauto | contradiction].
Qed.

(** X8: a run with no uploaded file, no camera photo and no click on the
    button fetches, opens and shows no image and does not call the
    pipeline. *)
Theorem idle_run_is_quiet :
  forall s inp,
    uploaded_file inp = None ->
    camera_photo inp = None ->
    url_button inp = false ->
    exists new,
      log (run s inp) = (new ++ log s)%list /\
      Forall (fun ev => is_request_event ev = false) new.
Proof.
  intros s inp Hup Hcam Hb.
  destruct (run_emits (run_event inp) inp (quiet_run_event inp)
              (page_run_events inp) s) as (new & Hlog & Hev).
  exists new. split; [exact Hlog|].
  eapply Forall_impl; [|exact Hev].
  assert (Hno : ~ has_input inp).
  { unfold has_input. rewrite Hup, Hcam, Hb. intros [H|[H|H]]; congruence. }
  intros [] H; cbn in *; auto; try tauto; try congruence.
  - destruct H as [H|[H|(H & _)]]; congruence.
  - destruct H; congruence.
  - destruct H; congruence.
  - destruct c; cbn in *; auto. tauto.
Qed.


(** X9: a failed fetch stays inside the URL tab.  After a click on a
    non-empty URL, when [requests.get], [raise_for_status] or [Image.open]
    raises [e], the tab returns, the last thing it does is to show the
    message with [st.error] ("Error fetching image: ..." for a request
    exception, "Error opening image: ..." for any other), and it shows no
    image and does not call the pipeline. *)
Theorem url_tab_reports_a_failed_fetch :
  forall inp processor model s e,
    url_button inp = true ->
    truthy (url_input inp) = true ->
    fetch_raises (url_input inp) (world s) e ->
    exists s' new,
      tab2 inp processor model s = (Return tt, s') /\
      log s' =
      (EvSt (st_error ((if is_RequestException (exn_class_of e)
                        then "Error fetching image: "
                        else "Error opening image: ") ++ exn_str e))
       :: new ++ log s)%list /\
      Forall (fun ev => shows_or_captions ev = false) new.
Proof.
  intros inp processor model s e Hb Hu Hf.
  unfold fetch_raises in Hf. unfold tab2. rewrite Hb, Hu.
  unfold with_spinner, load_image_from_url, try_except, bind, lib_call, st, ret,
    record, set_world.
  cbn.
  destruct (requests_get (url_input inp) 10 (world s)) as [[r|e1] w1]; cbn.
  - destruct (Response_raise_for_status r w1) as [[[]|e2] w2]; cbn.
    + destruct (Image_open (content r) w2) as [[im|e3] w3]; cbn; [contradiction|].
      subst e3. destruct (is_RequestException (exn_class_of e)); cbn;
        do 2 eexists; (split; [reflexivity|]); cbn;
        (split; [apply f_equal; prefix | repeat constructor]).
    + subst e2. destruct (is_RequestException (exn_class_of e)); cbn;
        do 2 eexists; (split; [reflexivity|]); cbn;
        (split; [apply f_equal; prefix | repeat constructor]).
  - subst e1. destruct (is_RequestException (exn_class_of e)); cbn;
      do 2 eexists; (split; [reflexivity|]); cbn;
      (split; [apply f_equal; prefix | repeat constructor]).
Qed.

(** X10: a failed load is stored like a successful one.  A run that finds
    the store empty and fails to load leaves [(None, None)] in it; a run
    that finds [(None, None)] in the store stops, leaves it there, and calls
    neither constructor, whatever the outside world has become. *)
Theorem failed_load_is_never_retried :
  forall s inp,
    (cache s = None -> load_fails s -> cache (run s inp) = Some (None, None)) /\
    (cache s = Some (None, None) ->
     fst (app inp s) = Stopped /\
     cache (run s inp) = Some (None, None) /\
     exists new,
       log (run s inp) = (new ++ log s)%list /\
       count is_processor_ctor new = 0%nat /\
       count is_model_ctor new = 0%nat).
Proof.
  intros s inp. destruct (run_spec s inp) as (new & Hlog & Hcache & _ & Hp & Hm).
  split.
  - intros Hc Hf. rewrite Hcache. unfold load_fails, loaded in *. rewrite Hc in *.
    unfold constructed in *.
    destruct (BlipProcessor_from_pretrained checkpoint (world s)) as [[p|e] w];
      [|reflexivity].
    destruct (BlipForConditionalGeneration_from_pretrained checkpoint w) as [[m|e] w'];
      [discriminate | reflexivity].
  - intros Hc.
    assert (Hf : load_fails s) by (unfold load_fails, loaded; rewrite Hc; reflexivity).
    destruct (run_when_load_fails s inp Hf) as (Hstop & _).
    split; [exact Hstop|]. split.
    + rewrite Hcache. unfold loaded. rewrite Hc. reflexivity.
    + exists new. rewrite Hc in Hp, Hm. cbn in Hp, Hm.
      split; [exact Hlog|]. split; lia.
Qed.

End Widgets.

(** * The theorems at work on the stand-in libraries *)

Module Examples.
Import Mock.

Lemma mock_convert_yields_target_mode : convert_yields_target_mode.
Proof.
  intros im target w im' w'. cbn. unfold convert.
  destruct (_ <? _)%Z; intros H; inversion H; reflexivity.
Qed.

Lemma mock_generate_respects_max_length : generate_respects_max_length.
Proof.
  intros m inputs n g w out w'. cbn. unfold generate.
  destruct (n <? 0)%Z eqn:Hn; intros H; inversion H; subst.
  apply Z.ltb_ge in Hn. constructor; [|constructor].
  rewrite length_firstn.
  destruct (forallb _ _); cbn [length]; lia.
Qed.

Lemma mock_pipeline_libs_are_functions : pipeline_libs_are_functions.
Proof.
  unfold pipeline_libs_are_functions, world_independent. cbn.
  split; [|split; [|split]]; intros.
  - unfold convert. destruct (_ <? _)%Z; reflexivity.
  - reflexivity.
  - unfold generate. destruct (_ <? _)%Z; reflexivity.
  - reflexivity.
Qed.

(** A grayscale image is converted, and the processor sees an RGB one. *)
Lemma gray_image_is_converted :
  exists new,
    log (snd (generate_caption (Some gray) (Some the_processor) (Some the_model) online)) =
    (new ++ log online)%list /\
    (forall p im0 rt, In (EvProcessorCall p im0 rt) new -> mode im0 = "RGB") /\
    exists rest, new = (rest ++ [EvConvert gray "RGB"])%list.
Proof.
  destruct (image_is_RGB_before_the_model mock_convert_yields_target_mode
              gray (Some the_processor) (Some the_model) online)
    as (new & Hlog & Hrgb & _ & Hconv & _).
  exists new. split; [exact Hlog|]. split; [exact Hrgb|].
  destruct Hconv as (rest & Hrest & _); [discriminate|].
  exists rest. exact Hrest.
Defined.

(** An RGB picture of a cat is captioned "a cat". *)
Lemma cat_caption :
  fst (generate_caption (Some rgb) (Some the_processor) (Some the_model) online) =
  Return "a cat".
Proof.
  destruct (caption_is_the_decoded_text rgb the_processor the_model online
              "a cat" _ eq_refl eq_refl) as (H & _).
  rewrite H. reflexivity.
Defined.

(** The claim of the specification fails on a black image: the model emits
    control tokens only, they are stripped, and the caption is empty. *)
Lemma black_image_gets_empty_caption : ~ caption_never_empty_nor_error.
Proof.
  intros H.
  destruct (H black the_processor the_model online "" _ eq_refl eq_refl)
    as (text & s'' & Hgc & Hne & _).
  vm_compute in Hgc. inversion Hgc. congruence.
Qed.

(** With the model hub out of reach, every run stops on the error. *)
Lemma offline_runs_stop :
  fst (app by_url (run_all [upload; idle] offline)) = Stopped /\
  exists new,
    log (run (run_all [upload; idle] offline) by_url) = (new ++ log offline)%list /\
    Forall (fun ev => is_request_event ev = false) new.
Proof.
  assert (Hf : load_fails offline) by reflexivity.
  destruct (load_failure_is_fatal offline Hf [upload; idle] by_url)
    as (Hstop & _ & Hnew).
  split; [exact Hstop | exact Hnew].
Defined.

(** Two calls on the same image give the same caption, whatever happened in
    between. *)
Lemma same_caption_twice :
  fst (generate_caption (Some gray) (Some the_processor) (Some the_model) online) =
  fst (generate_caption (Some gray) (Some the_processor) (Some the_model)
         (run_all [upload; by_url] online)).
Proof.
  destruct (generate_caption_is_stateless (Some gray) (Some the_processor) (Some the_model)
              online (run_all [upload; by_url] online))
    as (_ & _ & H).
  exact (H mock_pipeline_libs_are_functions).
Defined.

(** A truncated image fails in step 1, and the failure comes back as text. *)
Lemma truncated_image_is_reported :
  fst (generate_caption (Some truncated) (Some the_processor) (Some the_model) online) =
  Return "Error generating caption: image file is truncated".
Proof.
  destruct (step1_exceptions_are_caught (Some the_processor) (Some the_model) online)
    as (_ & H).
  rewrite (H truncated (mk_exn OSError "image file is truncated") true);
    [reflexivity | discriminate | reflexivity].
Defined.

(** The caption of the cat comes from a sequence of at most 50 tokens. *)
Lemma cat_sequence_is_capped :
  exists seq : list Z,
    In (EvDecode the_processor seq true)
       (log (snd (generate_caption (Some rgb) (Some the_processor) (Some the_model) online))) /\
    (Z.of_nat (length seq) <= 50)%Z.
Proof.
  destruct (inference_settings (Some rgb) (Some the_processor) (Some the_model) online)
    as (new & Hlog & _ & _ & _ & H).
  destruct (H "a cat" _ eq_refl)
    as (p & m & inputs & w & seq & rest & w' & w'' & Hp & _ & _ & _ & Hd & _ & _ & Hcap).
  inversion Hp; subst p.
  exists seq. split.
  - rewrite Hlog. apply in_or_app. left. exact Hd.
  - exact (Hcap mock_generate_respects_max_length).
Defined.

(** After an upload and a fetch, a third run finds the model in the store:
    [load_model] hands back the handle of the first run, and the model was
    constructed once. *)
Lemma model_is_reused_by_later_runs :
  load_model (run_all [idle] (run_all [upload; by_url] online)) =
  (Return (Some the_processor, Some the_model),
   run_all [idle] (run_all [upload; by_url] online)) /\
  (count is_model_ctor (log (run_all [upload; by_url] online)) <= 1)%nat.
Proof.
  destruct (model_constructed_at_most_once (L := libs) true [upload; by_url])
    as (_ & Hm & _ & _ & _ & _ & Hhit).
  split; [|exact Hm].
  apply (Hhit (fun e => nil_cons (eq_sym e)) [idle]).
Defined.

End Examples.

Module MoreExamples.
Import Mock.

(** A truncated upload is drawn, then announced as captioned, with the
    error for a caption. *)
Lemma truncated_upload_is_announced_as_captioned :
  exists s' older,
    show_caption (Some truncated) "Uploaded Image"
      (Some the_processor) (Some the_model) online = (Return tt, s') /\
    log s' = EvSt (st_info "Error generating caption: image file is truncated")
             :: EvSt (st_markdown "### 💬 Caption:")
             :: EvSt (st_success "Caption Generated!") :: older.
Proof.
  destruct (pipeline_failure_is_shown_as_a_caption
              (Some truncated) "Uploaded Image" (Some the_processor) (Some the_model)
              online true (mk_exn OSError "image file is truncated") _ eq_refl eq_refl)
    as (s' & Hshow & Hlog).
  exists s'. eexists. split; [exact Hshow | exact Hlog].
Defined.

(** A run with nothing uploaded, photographed or clicked. *)
Lemma idle_run_touches_no_image :
  exists new,
    log (run online idle) = (new ++ log online)%list /\
    Forall (fun ev => is_request_event ev = false) new.
Proof. exact (idle_run_is_quiet online idle eq_refl eq_refl eq_refl). Defined.

(** A page of HTML behind the URL is reported in the tab. *)
Lemma html_page_is_reported :
  exists s' new,
    tab2 (mk_UserInput None "https://example.com/index.html" true None)
      (Some the_processor) (Some the_model) online = (Return tt, s') /\
    log s' = (EvSt (st_error "Error opening image: cannot identify image file")
              :: new ++ log online)%list /\
    Forall (fun ev => shows_or_captions ev = false) new.
Proof.
  exact (url_tab_reports_a_failed_fetch
           (mk_UserInput None "https://example.com/index.html" true None)
           (Some the_processor) (Some the_model) online
           (mk_exn UnidentifiedImageError "cannot identify image file")
           eq_refl eq_refl eq_refl).
Defined.

(** The network is back, the store still holds the failure: the run stops
    without calling a constructor. *)
Lemma refreshing_does_not_reload :
  fst (app by_url (set_cache (Some (None, None)) online)) = Stopped /\
  cache (run (set_cache (Some (None, None)) online) by_url) = Some (None, None) /\
  exists new,
    log (run (set_cache (Some (None, None)) online) by_url) =
    (new ++ log (set_cache (Some (None, None)) online))%list /\
    count is_processor_ctor new = 0%nat /\
    count is_model_ctor new = 0%nat.
Proof.
  exact (proj2 (failed_load_is_never_retried
                  (set_cache (Some (None, None)) online) by_url) eq_refl).
Defined.

End MoreExamples.

Module DisplayExamples.
Import Display.

(** An image without pixels behind the URL: [st.image] raises, nothing
    catches it, and the run ends there. *)
Lemma empty_image_ends_the_run :
  fst (app by_url warm) = Raised (mk_exn ValueError "cannot write empty image as PNG") /\
  exists older,
    log (run warm by_url) = EvSt (st_image (Some empty) "Image from URL") :: older.
Proof.
  exact (url_tab_image_failure_ends_the_run by_url warm 1%nat 2%nat
           (mk_Response 200 empty_png) true true empty true
           (mk_exn ValueError "cannot write empty image as PNG") true
           eq_refl eq_refl eq_refl eq_refl eq_refl eq_refl eq_refl eq_refl).
Defined.

End DisplayExamples.
